(** * Agent-level credential configuration: a Rocq model of
    [core/framework/credentials/agent_config.py]

    The module keeps, for one agent directory, a table from provider name to
    integration id in [<agent_path>/credentials.json].  The class
    [AgentCredentialConfig] loads the table, changes it in memory and writes
    it back.

    The development has four layers:
    - Python values and the [dict] operations the class uses;
    - the two functions of the standard [json] package the class calls,
      [json.dumps (indent=2)] and [json.loads], after CPython's [json/encoder.py],
      [json/decoder.py] and [json/scanner.py];
    - a world made of a heap of objects, a file system and the log, with the
      three [pathlib.Path] methods the class calls;
    - the class itself, method by method, and the properties of its
      specification.

    Left out of the model: [float] values (a text with a float literal has
    the outcome [Unmodelled]); the bytes of a file and their decoding (a file
    holds text); the conversion of a [str] to a [Path] ([load] takes a
    [Path]); the recursion limit of the interpreter; the message and the
    position an exception carries, and with them what the f-strings of the
    log records append to their fixed text (the exception, the path of the
    saved file); of the file system, names it cannot store (a name
    with a NUL, a slash or a surrogate that has no encoding), the bound on
    the length of a whole path, a umask that takes from a new file the
    owner's right to read or to write it, and a write that fails after the
    file was opened and emptied. *)

From Stdlib Require Import ZArith NArith Ascii String DecimalString.
From stdpp Require Import base option list gmap.

(** ** Text

    A Python [str] is a sequence of code points.  Lone surrogates are legal
    members of a [str], and the [json] package treats them specially, so a code
    point is a number, not a byte. *)

Abbreviation char := N (only parsing).
Abbreviation text := (list N) (only parsing).

Fixpoint str (s : string) : text :=
  match s with
  | EmptyString => []
  | String a s' => N_of_ascii a :: str s'
  end.

(** [ord "x"] is the code point of an ASCII character. *)
Definition ord (a : ascii) : char := N_of_ascii a.

(** Every code point of a [str] is below [0x110000]. *)
Definition is_str (s : text) : Prop := Forall (λ c, (c < 0x110000)%N) s.

(** The two halves of a surrogate pair. *)
Definition is_high (c : char) : bool := (0xd800 <=? c)%N && (c <=? 0xdbff)%N.
Definition is_low (c : char) : bool := (0xdc00 <=? c)%N && (c <=? 0xdfff)%N.

(** Whether somewhere in [s] a high surrogate comes right before a low one. *)
Fixpoint has_surrogate_pair (s : text) : bool :=
  match s with
  | c :: s' =>
      match s' with
      | c' :: _ => is_high c && is_low c' || has_surrogate_pair s'
      | [] => false
      end
  | [] => false
  end.

(** A [str] that [json] writes and reads back unchanged. *)
Definition good (s : text) : Prop := is_str s ∧ has_surrogate_pair s = false.

(** ** Exceptions and outcomes

    A call returns, raises, or falls outside what is modelled (a [float], a
    [dict] built from a list of pairs). *)

Inductive exn : Set :=
| JSONDecodeError
| OSError
| AttributeError
| TypeError
| KeyError
| ValueError
| StopIteration.

Global Instance exn_eq_dec : EqDecision exn.
Proof. solve_decision. Defined.

Inductive outcome (A : Type) : Type :=
| Returns (a : A)
| Raises (e : exn)
| Unmodelled.
Arguments Returns {A} a.
Arguments Raises {A} e.
Arguments Unmodelled {A}.

Global Instance outcome_ret : MRet outcome := λ A a, Returns a.
Global Instance outcome_bind : MBind outcome := λ A B f x,
  match x with
  | Returns a => f a
  | Raises e => Raises e
  | Unmodelled => Unmodelled
  end.

(** ** Python values

    The values [json.loads] can build, [float] left out.  A [dict] keeps its
    items in insertion order; its keys are [str] (every key [json.loads]
    produces is one, and [mappings] is declared [dict[str, str]]). *)

Unset Elimination Schemes.
Inductive pyval : Type :=
| VNone
| VBool (b : bool)
| VInt (z : Z)
| VStr (s : text)
| VList (l : list pyval)
| VDict (d : list (text * pyval)).
Set Elimination Schemes.

Abbreviation pydict := (list (text * pyval)) (only parsing).

(** *** [dict] operations

    [d.get(k)], [k in d], [d[k] = v] and [del d[k]] on the items of a [dict].
    Assignment to a key already present keeps the key's place; a new key goes
    to the end. *)

Fixpoint dict_get (k : text) (d : pydict) : option pyval :=
  match d with
  | [] => None
  | (k', v) :: d' => if decide (k = k') then Some v else dict_get k d'
  end.

Definition dict_contains (k : text) (d : pydict) : bool :=
  bool_decide (is_Some (dict_get k d)).

Fixpoint dict_setitem (k : text) (v : pyval) (d : pydict) : pydict :=
  match d with
  | [] => [(k, v)]
  | (k', v') :: d' =>
      if decide (k = k') then (k', v) :: d' else (k', v') :: dict_setitem k v d'
  end.

Fixpoint dict_delitem (k : text) (d : pydict) : pydict :=
  match d with
  | [] => []
  | (k', v') :: d' =>
      if decide (k = k') then d' else (k', v') :: dict_delitem k d'
  end.

(** [dict(pairs)] on a list of key/value pairs: later pairs overwrite. *)
Definition dict_of_pairs (pairs : pydict) : pydict :=
  foldl (λ d kv, dict_setitem kv.1 kv.2 d) [] pairs.

(** The keys of a [dict] are pairwise distinct. *)
Definition is_dict (d : pydict) : Prop := NoDup d.*1.

(** A [dict[str, str]]: distinct keys, every key and value a [str]. *)
Definition is_str_dict (d : pydict) : Prop :=
  is_dict d ∧ Forall (λ kv, is_str kv.1 ∧ ∃ s, kv.2 = VStr s ∧ is_str s) d.

(** ** The [json] package *)

Module json.
Local Open Scope N_scope.

(** *** [json/encoder.py]: [dumps] with [indent=2]

    [ensure_ascii] has its default, [True]: the text written has only
    characters between space and tilde, and newlines. *)

Definition hexdigit (d : N) : char := if d <? 10 then 48 + d else 87 + d.

(** ['{0:04x}'.format(n)], called with [n < 0x10000] only. *)
Definition format_04x (n : N) : text :=
  [hexdigit (n / 4096 mod 16); hexdigit (n / 256 mod 16);
   hexdigit (n / 16 mod 16); hexdigit (n mod 16)].

(** [ESCAPE_DCT], the short escapes. *)
Definition ESCAPE_DCT (c : char) : option text :=
  if c =? 92 then Some [92; 92]           (* backslash *)
  else if c =? 34 then Some [92; 34]      (* double quote *)
  else if c =? 8 then Some (str "\b")
  else if c =? 12 then Some (str "\f")
  else if c =? 10 then Some (str "\n")
  else if c =? 13 then Some (str "\r")
  else if c =? 9 then Some (str "\t")
  else None.

(** The function [replace] of [py_encode_basestring_ascii]. *)
Definition replace (c : char) : text :=
  match ESCAPE_DCT c with
  | Some r => r
  | None =>
      if c <? 0x10000 then str "\u" ++ format_04x c
      else
        (* surrogate pair *)
        let n := c - 0x10000 in
        let s1 := N.lor 0xd800 (N.land (N.shiftr n 10) 0x3ff) in
        let s2 := N.lor 0xdc00 (N.land n 0x3ff) in
        str "\u" ++ format_04x s1 ++ str "\u" ++ format_04x s2
  end.

(** [ESCAPE_ASCII]: a backslash, a double quote, or anything outside
    space..tilde. *)
Definition ESCAPE_ASCII (c : char) : bool :=
  (c =? 92) || (c =? 34) || negb ((32 <=? c) && (c <=? 126)).

Definition escape (s : text) : text :=
  flat_map (λ c, if ESCAPE_ASCII c then replace c else [c]) s.

Definition py_encode_basestring_ascii (s : text) : text :=
  34 :: escape s ++ [34].

Fixpoint uint_digits (u : Decimal.uint) : text :=
  match u with
  | Decimal.Nil => []
  | Decimal.D0 u => 48 :: uint_digits u
  | Decimal.D1 u => 49 :: uint_digits u
  | Decimal.D2 u => 50 :: uint_digits u
  | Decimal.D3 u => 51 :: uint_digits u
  | Decimal.D4 u => 52 :: uint_digits u
  | Decimal.D5 u => 53 :: uint_digits u
  | Decimal.D6 u => 54 :: uint_digits u
  | Decimal.D7 u => 55 :: uint_digits u
  | Decimal.D8 u => 56 :: uint_digits u
  | Decimal.D9 u => 57 :: uint_digits u
  end.

(** [int.__repr__] *)
Definition intstr (z : Z) : text :=
  match Z.to_int z with
  | Decimal.Pos u => uint_digits u
  | Decimal.Neg u => 45 :: uint_digits u
  end.

(** ['\n' + _indent * _current_indent_level], with [_indent = ' ' * 2]. *)
Definition newline_indent (level : nat) : text :=
  10 :: List.repeat 32 (2 * level)%nat.

Fixpoint join (sep : text) (chunks : list text) : text :=
  match chunks with
  | [] => []
  | [c] => c
  | c :: cs => c ++ sep ++ join sep cs
  end.

(** [_iterencode], [_iterencode_list] and [_iterencode_dict]; [level] is
    [_current_indent_level].  With an indent the item separator is [","]
    followed by the new line and its indentation, the key separator [": "]. *)
Fixpoint iterencode (level : nat) (o : pyval) : text :=
  match o with
  | VStr s => py_encode_basestring_ascii s
  | VNone => str "null"
  | VBool true => str "true"
  | VBool false => str "false"
  | VInt z => intstr z
  | VList l =>
      match l with
      | [] => str "[]"
      | _ =>
          str "[" ++ newline_indent (S level)
          ++ join (str "," ++ newline_indent (S level))
               (map (iterencode (S level)) l)
          ++ newline_indent level ++ str "]"
      end
  | VDict d =>
      match d with
      | [] => str "{}"
      | _ =>
          str "{" ++ newline_indent (S level)
          ++ join (str "," ++ newline_indent (S level))
               (map (λ kv, py_encode_basestring_ascii kv.1 ++ str ": "
                           ++ iterencode (S level) kv.2) d)
          ++ newline_indent level ++ str "}"
      end
  end.

Definition dumps (obj : pyval) : text := iterencode 0 obj.

(** *** [json/decoder.py] and [json/scanner.py]: [loads]

    A position in the source is the text that remains from it.  An error keeps
    its class and loses its message and position.  Of the two scanners CPython
    has, the C one is followed where they differ: a [\u] escape takes four hex
    digits and nothing else. *)

(** [WHITESPACE = re.compile(r'[ \t\n\r]*')] *)
Definition is_ws (c : char) : bool :=
  (c =? 32) || (c =? 9) || (c =? 10) || (c =? 13).

Fixpoint skip_ws (s : text) : text :=
  match s with
  | c :: s' => if is_ws c then skip_ws s' else s
  | [] => []
  end.

Definition hexval (c : char) : option N :=
  if (48 <=? c) && (c <=? 57) then Some (c - 48)
  else if (97 <=? c) && (c <=? 102) then Some (c - 87)
  else if (65 <=? c) && (c <=? 70) then Some (c - 55)
  else None.

(** [_decode_uXXXX] on the four characters after [\u]. *)
Definition decode_uXXXX (h1 h2 h3 h4 : char) : option N :=
  d1 ← hexval h1; d2 ← hexval h2; d3 ← hexval h3; d4 ← hexval h4;
  Some (((d1 * 16 + d2) * 16 + d3) * 16 + d4).

(** The table [BACKSLASH]. *)
Definition BACKSLASH (esc : char) : option char :=
  if esc =? 34 then Some 34           (* double quote *)
  else if esc =? 92 then Some 92      (* backslash *)
  else if esc =? ord "/" then Some (ord "/")
  else if esc =? ord "b" then Some 8
  else if esc =? ord "f" then Some 12
  else if esc =? ord "n" then Some 10
  else if esc =? ord "r" then Some 13
  else if esc =? ord "t" then Some 9
  else None.

Definition append_char (c : char) (r : outcome (text * text))
  : outcome (text * text) :=
  '(t, rest) ← r; Returns (c :: t, rest).

(** Whether [t] starts with a [\u] escape that [scanstring], coming from a
    high surrogate, does not leave alone: the escape of a low surrogate, or a
    broken one. *)
Definition low_escape_follows (t : text) : bool :=
  match t with
  | [] => false
  | b :: t1 =>
      (b =? 92)
      && match t1 with
         | [] => false
         | u :: t2 =>
             (u =? 117)
             && match t2 with
                | g1 :: g2 :: g3 :: g4 :: _ =>
                    match decode_uXXXX g1 g2 g3 g4 with
                    | Some uni2 => is_low uni2
                    | None => true
                    end
                | _ => true
                end
         end
  end.

(** [scanstring] with [strict=True]; [s] starts after the opening quote. *)
Fixpoint scanstring (s : text) : outcome (text * text) :=
  match s with
  | [] => Raises JSONDecodeError          (* Unterminated string *)
  | c :: s1 =>
      if c =? 34 then Returns ([], s1)
      else if c =? 92 then
        match s1 with
        | [] => Raises JSONDecodeError    (* Unterminated string *)
        | esc :: s2 =>
            if esc =? ord "u" then
              match s2 with
              | h1 :: h2 :: h3 :: h4 :: s3 =>
                  match decode_uXXXX h1 h2 h3 h4 with
                  | None => Raises JSONDecodeError   (* Invalid \uXXXX escape *)
                  | Some uni =>
                      match s3 with
                      | b :: u :: s4 =>
                          if (0xd800 <=? uni) && (uni <=? 0xdbff)
                             && (b =? 92) && (u =? ord "u") then
                            match s4 with
                            | g1 :: g2 :: g3 :: g4 :: s5 =>
                                match decode_uXXXX g1 g2 g3 g4 with
                                | None => Raises JSONDecodeError
                                | Some uni2 =>
                                    if (0xdc00 <=? uni2) && (uni2 <=? 0xdfff) then
                                      append_char
                                        (0x10000 + N.lor (N.shiftl (uni - 0xd800) 10)
                                                         (uni2 - 0xdc00))
                                        (scanstring s5)
                                    else append_char uni (scanstring s3)
                                end
                            | _ => Raises JSONDecodeError
                            end
                          else append_char uni (scanstring s3)
                      | _ => append_char uni (scanstring s3)
                      end
                  end
              | _ => Raises JSONDecodeError          (* Invalid \uXXXX escape *)
              end
            else
              match BACKSLASH esc with
              | Some ch => append_char ch (scanstring s2)
              | None => Raises JSONDecodeError       (* Invalid \escape *)
              end
        end
      else if c <? 32 then Raises JSONDecodeError    (* Invalid control character *)
      else append_char c (scanstring s1)
  end.

(** [NUMBER_RE] has three groups: [integer], an optional minus sign and then
    a zero or a nonzero digit and more digits; [frac], a dot and digits; [exp],
    an [e] or [E], an optional sign and digits. *)
Definition is_digit (c : char) : bool := (48 <=? c) && (c <=? 57).

Fixpoint digits (acc : Z) (s : text) : Z * text :=
  match s with
  | c :: s' =>
      if is_digit c then digits (acc * 10 + Z.of_N (c - 48))%Z s' else (acc, s)
  | [] => (acc, [])
  end.

(** The group [integer] as an [int], and the text after it. *)
Definition match_integer (s : text) : option (Z * text) :=
  let '(neg, s1) :=
    match s with
    | c :: s' => if c =? ord "-" then (true, s') else (false, s)
    | [] => (false, s)
    end in
  match s1 with
  | c :: s2 =>
      if c =? 48 then Some (0%Z, s2)
      else if is_digit c then
        let '(n, s3) := digits (Z.of_N (c - 48)) s2 in
        Some (if neg : bool then (- n)%Z else n, s3)
      else None
  | [] => None
  end.

(** Whether the groups [frac] and [exp] match at [s]. *)
Definition has_frac (s : text) : bool :=
  match s with
  | c :: d :: _ => (c =? ord ".") && is_digit d
  | _ => false
  end.

Definition has_exp (s : text) : bool :=
  match s with
  | c :: d :: s' =>
      ((c =? ord "e") || (c =? ord "E"))
      && (is_digit d
          || (((d =? ord "+") || (d =? ord "-"))
              && match s' with e :: _ => is_digit e | [] => false end))
  | _ => false
  end.

(** [sys.get_int_max_str_digits()]: [int] refuses a literal with more
    digits, with [ValueError]. *)
Definition int_max_str_digits : nat := 4300.

(** The digits of the group [integer] that ends where [rest] starts. *)
Definition integer_digits (s rest : text) : nat :=
  let unsigned :=
    match s with
    | c :: s' => if c =? ord "-" then s' else s
    | [] => s
    end in
  (length unsigned - length rest)%nat.

Fixpoint startswith (prefix s : text) : bool :=
  match prefix, s with
  | [], _ => true
  | p :: prefix', c :: s' => (c =? p) && startswith prefix' s'
  | _ :: _, [] => false
  end.

(** [raise JSONDecodeError("Expecting value", ...)] where [scan_once] raised
    [StopIteration]. *)
Definition expecting_value {A} (r : outcome A) : outcome A :=
  match r with
  | Raises StopIteration => Raises JSONDecodeError
  | _ => r
  end.

Section scanner.
(** [JSONObject] and [JSONArray] receive [scan_once] as an argument. *)
Variable scan_once : text → outcome (pyval * text).

(** The loop of [JSONObject]; [s] starts after the opening quote of a key,
    [n] bounds the number of turns. *)
Fixpoint object_items (n : nat) (s : text) : outcome (pydict * text) :=
  match n with
  | O => Unmodelled
  | S n =>
      '(key, s1) ← scanstring s;
      match skip_ws s1 with
      | c :: s2 =>
          if c =? ord ":" then
            '(value, s3) ← expecting_value (scan_once (skip_ws s2));
            match skip_ws s3 with
            | c :: s4 =>
                if c =? ord "}" then Returns ([(key, value)], s4)
                else if c =? ord "," then
                  match skip_ws s4 with
                  | c :: s5 =>
                      if c =? 34 then
                        '(pairs, rest) ← object_items n s5;
                        Returns ((key, value) :: pairs, rest)
                      else Raises JSONDecodeError  (* Expecting property name *)
                  | [] => Raises JSONDecodeError
                  end
                else Raises JSONDecodeError        (* Expecting ',' delimiter *)
            | [] => Raises JSONDecodeError
            end
          else Raises JSONDecodeError              (* Expecting ':' delimiter *)
      | [] => Raises JSONDecodeError
      end
  end.

(** [s] starts after the opening brace. *)
Definition JSONObject (s : text) : outcome (pyval * text) :=
  match skip_ws s with
  | c :: s1 =>
      if c =? ord "}" then Returns (VDict [], s1)
      else if c =? 34 then
        '(pairs, rest) ← object_items (length s1) s1;
        Returns (VDict (dict_of_pairs pairs), rest)
      else Raises JSONDecodeError                  (* Expecting property name *)
  | [] => Raises JSONDecodeError
  end.

(** The loop of [JSONArray]; [s] starts at a value. *)
Fixpoint array_items (n : nat) (s : text) : outcome (list pyval * text) :=
  match n with
  | O => Unmodelled
  | S n =>
      '(value, s1) ← expecting_value (scan_once s);
      match skip_ws s1 with
      | c :: s2 =>
          if c =? ord "]" then Returns ([value], s2)
          else if c =? ord "," then
            '(values, rest) ← array_items n (skip_ws s2);
            Returns (value :: values, rest)
          else Raises JSONDecodeError              (* Expecting ',' delimiter *)
      | [] => Raises JSONDecodeError
      end
  end.

(** [s] starts after the opening bracket. *)
Definition JSONArray (s : text) : outcome (pyval * text) :=
  match skip_ws s with
  | c :: s1 =>
      if c =? ord "]" then Returns (VList [], s1)
      else
        '(values, rest) ← array_items (length s) (skip_ws s);
        Returns (VList values, rest)
  | [] => Raises JSONDecodeError
  end.

(** The body of [_scan_once] in [py_make_scanner]. *)
Definition scan_once_body (s : text) : outcome (pyval * text) :=
  match s with
  | [] => Raises StopIteration
  | nextchar :: s' =>
      if nextchar =? 34 then
        '(r, rest) ← scanstring s'; Returns (VStr r, rest)
      else if nextchar =? ord "{" then JSONObject s'
      else if nextchar =? ord "[" then JSONArray s'
      else if startswith (str "null") s then Returns (VNone, drop 4 s)
      else if startswith (str "true") s then Returns (VBool true, drop 4 s)
      else if startswith (str "false") s then Returns (VBool false, drop 5 s)
      else
        match match_integer s with
        | Some (z, rest) =>
            if has_frac rest || has_exp rest then Unmodelled   (* a float *)
            else if bool_decide (int_max_str_digits < integer_digits s rest)%nat
            then Raises ValueError                             (* too many digits *)
            else Returns (VInt z, rest)
        | None =>
            if startswith (str "NaN") s || startswith (str "Infinity") s
               || startswith (str "-Infinity") s
            then Unmodelled                                    (* a float *)
            else Raises StopIteration
        end
  end.
End scanner.

(** [scan_once] calls itself through [JSONObject] and [JSONArray]; [depth]
    bounds the nesting. *)
Fixpoint scan_once (depth : nat) (s : text) : outcome (pyval * text) :=
  match depth with
  | O => Unmodelled
  | S depth => scan_once_body (scan_once depth) s
  end.

(** [loads], through [JSONDecoder.decode] and [raw_decode].  A text cannot
    nest deeper than it is long. *)
Definition loads (s : text) : outcome pyval :=
  if startswith [0xfeff] s then Raises JSONDecodeError   (* Unexpected UTF-8 BOM *)
  else
    '(obj, rest) ← expecting_value (scan_once (S (length s)) (skip_ws s));
    match skip_ws rest with
    | [] => Returns obj
    | _ :: _ => Raises JSONDecodeError                   (* Extra data *)
    end.

End json.

(** ** The world: objects, files and the log

    A [dict] is an object: two names can hold the same one, and a change made
    through one name is seen through the other.  The heap maps the identity of
    an object to its value.  The values inside a [dict] are held by value; for
    a [dict[str, str]] they are immutable. *)

Abbreviation loc := positive (only parsing).

(** A path is the list of its components. *)
Abbreviation Path := (list (list N)) (only parsing).

(** What is at a path: a regular file with its permissions and its text; a
    directory that may be searched, with its write permission; or a directory
    that may not be searched.  Nothing below a directory of the last kind can
    be reached, and the disk holds nothing below one. *)
Inductive node : Type :=
| File (readable writable : bool) (content : text)
| Directory (writable : bool)
| Unsearchable.

Inductive level : Set := INFO | WARNING | ERROR.

Record world : Type := World {
  heap : gmap positive pyval;
  disk : gmap (list (list N)) node;
  log : list (level * text)
}.

Definition set_heap (h : gmap positive pyval) (w : world) : world :=
  {| heap := h; disk := disk w; log := log w |}.
Definition set_disk (d : gmap (list (list N)) node) (w : world) : world :=
  {| heap := heap w; disk := d; log := log w |}.
Definition set_log (l : list (level * text)) (w : world) : world :=
  {| heap := heap w; disk := disk w; log := l |}.

(** A computation runs in a world and leaves a world, also when it raises. *)
Definition M (A : Type) : Type := world → outcome A * world.

Global Instance M_ret : MRet M := λ A a w, (Returns a, w).
Global Instance M_bind : MBind M := λ A B f m w,
  match m w with
  | (Returns a, w') => f a w'
  | (Raises e, w') => (Raises e, w')
  | (Unmodelled, w') => (Unmodelled, w')
  end.

Definition lift {A} (x : outcome A) : M A := λ w, (x, w).
Definition raise {A} (e : exn) : M A := lift (Raises e).

(** [try: body except classes: handler] *)
Definition try_except {A} (body : M A) (classes : list exn) (handler : exn → M A)
  : M A := λ w,
  match body w with
  | (Raises e, w') =>
      if bool_decide (e ∈ classes) then handler e w' else (Raises e, w')
  | r => r
  end.

(** A new object. *)
Definition alloc (v : pyval) : M loc := λ w,
  let l := fresh (dom (heap w)) in
  (Returns l, set_heap (<[l := v]> (heap w)) w).

(** The object a name holds. *)
Definition deref (l : loc) : M pyval := λ w,
  match heap w !! l with
  | Some v => (Returns v, w)
  | None => (Unmodelled, w)
  end.

(** A change of an object in place. *)
Definition store (l : loc) (v : pyval) : M unit := λ w,
  (Returns (), set_heap (<[l := v]> (heap w)) w).

(** A record of the log is its level and the fixed text its message starts
    with. *)
Module logging.
Definition emit (lvl : level) (msg : text) : M unit := λ w,
  (Returns (), set_log (log w ++ [(lvl, msg)]) w).
Definition info := emit INFO.
Definition warning := emit WARNING.
Definition error := emit ERROR.
End logging.

(** *** [pathlib.Path]: [/], [exists], [read_text], [write_text] *)

Module pathlib.
(** [self / name] for a name of one component. *)
Definition truediv (self : Path) (name : text) : Path := self ++ [name].

Definition parent (self : Path) : Path := removelast self.

(** [NAME_MAX]: the bytes a file name may have. *)
Definition NAME_MAX : N := 255.

(** The bytes of a character in UTF-8. *)
Definition utf8_length (c : char) : N :=
  if (c <? 0x80)%N then 1%N
  else if (c <? 0x800)%N then 2%N
  else if (c <? 0x10000)%N then 3%N
  else 4%N.

Definition name_too_long (name : text) : bool :=
  (NAME_MAX <? foldr (λ c n, utf8_length c + n) 0 name)%N.

(** Whether [stat] on a path with nothing at it fails with an error other
    than "not found".  The path is given from its last name back.  In a
    directory that was reached, a name is not found, unless it is too long;
    a directory that may not be searched refuses; below a file nothing is
    found; and where the parent is missing too, [stat] fails as it fails on
    the parent.  With no parent left the name is looked up in the working
    directory. *)
Fixpoint stat_error_rev (w : world) (rev_self : Path) : bool :=
  match rev_self with
  | [] => false
  | name :: rev_parent =>
      match disk w !! reverse rev_parent with
      | Some (Directory _) => name_too_long name    (* ENAMETOOLONG *)
      | Some Unsearchable => true                   (* EACCES *)
      | Some (File _ _ _) => false                  (* ENOTDIR *)
      | None =>
          match rev_parent with
          | [] => name_too_long name
          | _ :: _ => stat_error_rev w rev_parent
          end
      end
  end.

Definition stat_error (w : world) (self : Path) : bool :=
  stat_error_rev w (reverse self).

(** [exists] is true where there is something, false where [stat] finds
    nothing, and raises the [OSError] of [stat] otherwise: [exists] ignores
    only the errors that say the path is not there. *)
Definition exists_ (self : Path) : M bool := λ w,
  match disk w !! self with
  | Some _ => (Returns true, w)
  | None =>
      if stat_error w self then (Raises OSError, w) else (Returns false, w)
  end.

(** [read_text] raises [OSError] for a path with no file, a directory, or a
    file that may not be read.  The content of a file is its decoded text. *)
Definition read_text (self : Path) : M text := λ w,
  match disk w !! self with
  | Some (File true _ content) => (Returns content, w)
  | _ => (Raises OSError, w)
  end.

(** [write_text] replaces the content of a writable file, creates the file
    in a writable directory, and raises [OSError] otherwise: the path is a
    directory, the file is read-only, the directory is missing, read-only or
    closed to search.  It does not create the directory.  A failure is a
    failure to open the file, before anything is written; a new file is one
    its owner may read and write. *)
Definition write_text (self : Path) (data : text) : M unit := λ w,
  match disk w !! self with
  | Some (File readable true _) =>
      (Returns (), set_disk (<[self := File readable true data]> (disk w)) w)
  | Some _ => (Raises OSError, w)
  | None =>
      match disk w !! parent self with
      | Some (Directory true) =>
          (Returns (), set_disk (<[self := File true true data]> (disk w)) w)
      | _ => (Raises OSError, w)
      end
  end.
End pathlib.

Infix "/" := pathlib.truediv : stdpp_scope.

(** ** Operations of Python objects the class applies to [mappings] and to
    the parsed document *)

(** [o.get(k, default)]: only a [dict] has the method. *)
Definition py_get (o : pyval) (k : text) (default : pyval) : outcome pyval :=
  match o with
  | VDict d => Returns (from_option id default (dict_get k d))
  | _ => Raises AttributeError
  end.

Fixpoint is_substring (p s : text) : bool :=
  json.startswith p s
  || match s with
     | [] => false
     | _ :: s' => is_substring p s'
     end.

(** [k in o] for a [str] [k]: a key of a [dict], an element of a [list], a
    substring of a [str]. *)
Definition py_contains (k : text) (o : pyval) : outcome bool :=
  match o with
  | VDict d => Returns (dict_contains k d)
  | VList l =>
      Returns (existsb (λ x, match x with
                             | VStr s => bool_decide (s = k)
                             | _ => false
                             end) l)
  | VStr s => Returns (is_substring k s)
  | _ => Raises TypeError
  end.

(** [o[k] = v] for a [str] [k]. *)
Definition py_setitem (o : pyval) (k : text) (v : pyval) : outcome pyval :=
  match o with
  | VDict d => Returns (VDict (dict_setitem k v d))
  | _ => Raises TypeError
  end.

(** [del o[k]] for a [str] [k]. *)
Definition py_delitem (o : pyval) (k : text) : outcome pyval :=
  match o with
  | VDict d =>
      if dict_contains k d then Returns (VDict (dict_delitem k d))
      else Raises KeyError
  | _ => Raises TypeError
  end.

(** [dict(o)]: a copy of a [dict]; a [dict] from a list of pairs is not
    modelled. *)
Definition py_dict (o : pyval) : outcome pydict :=
  match o with
  | VDict d => Returns d
  | VList [] | VStr [] => Returns []
  | VStr (_ :: _) => Raises ValueError
  | VList (_ :: _) => Unmodelled
  | _ => Raises TypeError
  end.

(** ** The class [AgentCredentialConfig] *)

Definition CONFIG_FILENAME : text := str "credentials.json".

(** The dataclass: a path and a name for the [dict] of mappings.  No method
    assigns to a field. *)
Record AgentCredentialConfig : Type := {
  agent_path : Path;
  mappings : loc
}.

Definition load (agent_path : Path) : M AgentCredentialConfig :=
  let config_path := agent_path / CONFIG_FILENAME in
  present ← pathlib.exists_ config_path;
  mappings ←
    (if present : bool then
       try_except
         (s ← pathlib.read_text config_path;
          data ← lift (json.loads s);
          lift (py_get data (str "mappings") (VDict [])))
         [JSONDecodeError; OSError]
         (λ e,
            logging.warning (str "Failed to load agent credential config: ");;
            mret (VDict []))
     else mret (VDict []));
  l ← alloc mappings;
  mret {| agent_path := agent_path; mappings := l |}.

Definition save (self : AgentCredentialConfig) : M unit :=
  let config_path := agent_path self / CONFIG_FILENAME in
  m ← deref (mappings self);
  let data := VDict [(str "mappings", m)] in
  try_except
    (pathlib.write_text config_path (json.dumps data);;
     logging.info (str "Saved agent credential config to "))
    [OSError]
    (λ e,
       logging.error (str "Failed to save agent credential config: ");;
       raise e).

(** [None] is the result for a provider with no mapping. *)
Definition get_integration_id (self : AgentCredentialConfig) (provider : text)
  : M pyval :=
  m ← deref (mappings self);
  lift (py_get m provider VNone).

Definition set_integration_id (self : AgentCredentialConfig)
    (provider integration_id : text) : M unit :=
  m ← deref (mappings self);
  m' ← lift (py_setitem m provider (VStr integration_id));
  store (mappings self) m'.

Definition remove_integration (self : AgentCredentialConfig) (provider : text)
  : M bool :=
  m ← deref (mappings self);
  present ← lift (py_contains provider m);
  if present : bool then
    m' ← lift (py_delitem m provider);
    store (mappings self) m';;
    mret true
  else mret false.

(** The result is the name of a new [dict]. *)
Definition list_mappings (self : AgentCredentialConfig) : M loc :=
  m ← deref (mappings self);
  d ← lift (py_dict m);
  alloc (VDict d).

Definition has_mapping (self : AgentCredentialConfig) (provider : text)
  : M bool :=
  m ← deref (mappings self);
  lift (py_contains provider m).

Definition get_integration_id_for_agent (agent_path : Path) (provider : text)
  : M pyval :=
  config ← load agent_path;
  get_integration_id config provider.

Definition set_integration_id_for_agent (agent_path : Path)
    (provider integration_id : text) : M unit :=
  config ← load agent_path;
  set_integration_id config provider integration_id;;
  save config.

(** ** Observations

    What a call leaves to look at: the table behind the name it returns. *)

Definition table_of (m : M loc) (w : world) : option pyval :=
  match m w with
  | (Returns l, w') => heap w' !! l
  | _ => None
  end.

(** [AgentCredentialConfig.load(agent_path).mappings] *)
Definition loaded_mappings (agent_path : Path) : M loc :=
  self ← load agent_path;
  mret (mappings self).

(** [AgentCredentialConfig.load(agent_path).has_mapping(provider)] *)
Definition loaded_has_mapping (agent_path : Path) (provider : text) : M bool :=
  self ← load agent_path;
  has_mapping self provider.

(** [self.save()] and then [AgentCredentialConfig.load(self.agent_path).list_mappings()] *)
Definition save_then_load (self : AgentCredentialConfig) : M loc :=
  save self;;
  loaded ← load (agent_path self);
  list_mappings loaded.

(** No key and no value of [d] has a high surrogate right before a low one. *)
Definition no_surrogate_pairs (d : pydict) : bool :=
  forallb (λ kv, negb (has_surrogate_pair kv.1)
                 && match kv.2 with
                    | VStr s => negb (has_surrogate_pair s)
                    | _ => true
                    end) d.

(** ** Sample data *)

Definition agent : Path := [str "exports"; str "my-agent"].

Definition example_table : pydict :=
  [(str "google", VStr (str "g-id")); (str "hubspot", VStr (str "h-id"))].

(** The two halves of U+1F600 as two code points. *)
Definition surrogate_table : pydict :=
  [([0xd83d; 0xde00]%N, VStr (str "x"))].

Definition example_config : AgentCredentialConfig :=
  {| agent_path := agent; mappings := 1%positive |}.

(** A world where [example_config] holds [m], with the files [files]. *)
Definition world_of (m : pyval) (files : gmap (list (list N)) node) : world :=
  {| heap := {[ 1%positive := m ]}; disk := files; log := [] |}.

(** The agent directory, empty. *)
Definition directory_only : gmap (list (list N)) node :=
  {[ agent := Directory true ]}.

(** The agent directory with [n] at [credentials.json]. *)
Definition with_file (n : node) : gmap (list (list N)) node :=
  <[ agent / CONFIG_FILENAME := n ]> directory_only.

(** The agent directory, empty, and closed to search. *)
Definition closed_directory : gmap (list (list N)) node :=
  {[ agent := Unsearchable ]}.

(** An agent path of one name of three hundred letters. *)
Definition long_agent : Path := [repeat (ord "a") 300].

Definition quoted (s : string) : text := 34%N :: str s ++ [34%N].

(** The text of a file whose [mappings] is the number five. *)
Definition five_text : text := str "{" ++ quoted "mappings" ++ str ": 5}".

(** The file of [test_load_existing_config], as [json.dumps] without indent
    writes it. *)
Definition existing_text : text :=
  str "{" ++ quoted "mappings" ++ str ": {"
  ++ quoted "google" ++ str ": " ++ quoted "Z29vZ2xlOmV4YW1wbGVAZ21haWwuY29t"
  ++ str ", "
  ++ quoted "hubspot" ++ str ": " ++ quoted "aHVic3BvdDp3b3JrQGNvbXBhbnkuY29t"
  ++ str "}}".

(** The text of the file at [p], read and parsed. *)
Definition parsed_file (p : Path) (w : world) : outcome pyval :=
  match disk w !! p with
  | Some (File _ _ content) => json.loads content
  | _ => Raises OSError
  end.

(** The items of [existing_text]. *)
Definition existing_table : pydict :=
  [(str "google", VStr (str "Z29vZ2xlOmV4YW1wbGVAZ21haWwuY29t"));
   (str "hubspot", VStr (str "aHVic3BvdDp3b3JrQGNvbXBhbnkuY29t"))].

(** ** More of the module *)

(** [AgentCredentialConfig(agent_path=p)]: the [__init__] the dataclass
    generates, with [mappings] left to its [default_factory], [dict]. *)
Definition new_config (agent_path : Path) : M AgentCredentialConfig :=
  l ← alloc (VDict []);
  mret {| agent_path := agent_path; mappings := l |}.

(** The three records the module logs. *)
Definition load_warning : level * text :=
  (WARNING, str "Failed to load agent credential config: ").

Definition save_info : level * text :=
  (INFO, str "Saved agent credential config to ").

Definition save_error : level * text :=
  (ERROR, str "Failed to save agent credential config: ").

(** A character from space to tilde, or a new line. *)
Definition printable (c : char) : Prop := (c = 10 ∨ (32 ≤ c ∧ c ≤ 126))%N.

(** * Properties *)

(** ** The [dict] operations *)

Section dict_facts.
Implicit Types (k : list N) (v : pyval) (d : list (list N * pyval)).

Lemma dict_contains_get k d :
  dict_contains k d = true ↔ is_Some (dict_get k d).
Proof. unfold dict_contains. apply bool_decide_eq_true. Qed.

Lemma dict_contains_false k d :
  dict_contains k d = false ↔ dict_get k d = None.
Proof.
  unfold dict_contains. rewrite bool_decide_eq_false.
  by rewrite eq_None_not_Some.
Qed.

Lemma dict_get_Some_key k v d : dict_get k d = Some v → k ∈ d.*1.
Proof.
  induction d as [|[k' v'] d IH]; csimpl; [done|].
  rewrite elem_of_cons. case_decide; subst; auto.
Qed.

Lemma dict_get_None_key k d : dict_get k d = None ↔ k ∉ d.*1.
Proof.
  induction d as [|[k' v'] d IH]; csimpl.
  - split; [intros _; apply not_elem_of_nil|done].
  - rewrite elem_of_cons. case_decide; subst; [naive_solver|].
    rewrite IH. naive_solver.
Qed.

Lemma dict_get_setitem k v d : dict_get k (dict_setitem k v d) = Some v.
Proof.
  induction d as [|[k' v'] d IH]; csimpl.
  - by rewrite decide_True.
  - case_decide; subst; simpl.
    + by rewrite decide_True.
    + by rewrite decide_False.
Qed.

Lemma dict_get_setitem_ne k k' v d :
  k ≠ k' → dict_get k' (dict_setitem k v d) = dict_get k' d.
Proof.
  intros Hne. induction d as [|[k0 v0] d IH]; csimpl.
  - by rewrite decide_False.
  - case_decide; subst; simpl.
    + by rewrite !decide_False.
    + by rewrite IH.
Qed.

Lemma dict_setitem_keys k v d :
  (dict_setitem k v d).*1 = if decide (k ∈ d.*1) then d.*1 else d.*1 ++ [k].
Proof.
  induction d as [|[k' v'] d IH]; csimpl; [done|].
  destruct (decide (k = k')) as [->|Hne]; csimpl.
  - rewrite decide_True; [done|apply list_elem_of_here].
  - rewrite IH. destruct (decide (k ∈ d.*1)).
    + rewrite decide_True; [done|by apply list_elem_of_further].
    + rewrite decide_False; [done|]. rewrite elem_of_cons. naive_solver.
Qed.

Lemma dict_setitem_new k v d : k ∉ d.*1 → dict_setitem k v d = d ++ [(k, v)].
Proof.
  induction d as [|[k' v'] d IH]; csimpl; [done|].
  rewrite elem_of_cons. intros Hk.
  rewrite decide_False by naive_solver. rewrite IH; naive_solver.
Qed.

Lemma dict_delitem_keys k d k' :
  is_dict d → k' ∈ (dict_delitem k d).*1 ↔ k' ∈ d.*1 ∧ k' ≠ k.
Proof.
  unfold is_dict. induction d as [|[k0 v0] d IH]; csimpl.
  - intros _. split; [by intros ?%not_elem_of_nil|by intros [?%not_elem_of_nil _]].
  - rewrite NoDup_cons. intros [Hk0 Hd]. rewrite elem_of_cons.
    case_decide; subst; simpl.
    + naive_solver.
    + rewrite elem_of_cons, IH by done. naive_solver.
Qed.

Lemma dict_get_delitem k d : is_dict d → dict_get k (dict_delitem k d) = None.
Proof.
  intros Hd. apply dict_get_None_key. rewrite dict_delitem_keys by done.
  naive_solver.
Qed.

Lemma dict_get_delitem_ne k k' d :
  k ≠ k' → dict_get k' (dict_delitem k d) = dict_get k' d.
Proof.
  intros Hne. induction d as [|[k0 v0] d IH]; csimpl; [done|].
  case_decide; subst; simpl.
  - by rewrite decide_False.
  - by rewrite IH.
Qed.

(** The operations keep the keys distinct. *)
Lemma is_dict_nil : is_dict [].
Proof. apply NoDup_nil_2. Qed.

Lemma is_dict_setitem k v d : is_dict d → is_dict (dict_setitem k v d).
Proof.
  unfold is_dict. rewrite dict_setitem_keys. case_decide; [done|].
  intros Hd. apply NoDup_app. split_and!; [done| |apply NoDup_singleton].
  by intros x Hx ->%list_elem_of_singleton.
Qed.

Lemma is_dict_delitem k d : is_dict d → is_dict (dict_delitem k d).
Proof.
  unfold is_dict. induction d as [|[k0 v0] d IH]; csimpl; [done|].
  rewrite NoDup_cons. intros [Hk0 Hd]. case_decide; subst; simpl; [done|].
  apply NoDup_cons. split; [|by apply IH].
  rewrite dict_delitem_keys by done. naive_solver.
Qed.

Lemma is_dict_of_pairs d : is_dict (dict_of_pairs d).
Proof.
  unfold dict_of_pairs. generalize is_dict_nil.
  generalize (@nil (list N * pyval)) as acc.
  induction d as [|[k v] d IH]; csimpl; [done|].
  intros acc Hacc. apply IH. by apply is_dict_setitem.
Qed.

(** [dict(pairs)] of pairs with distinct keys keeps the pairs and their
    order. *)
Lemma dict_of_pairs_id d : is_dict d → dict_of_pairs d = d.
Proof.
  unfold dict_of_pairs. intros Hd.
  enough (∀ acc, NoDup (acc.*1 ++ d.*1) →
            foldl (λ d kv, dict_setitem kv.1 kv.2 d) acc d = acc ++ d) as H.
  { by apply (H []). }
  clear Hd. induction d as [|[k v] d IH]; csimpl; intros acc Hnd.
  - by rewrite app_nil_r.
  - rewrite IH.
    + rewrite dict_setitem_new; [by rewrite <-app_assoc|].
      apply NoDup_app in Hnd as (_ & Hnd & _).
      intros Hk. apply (Hnd _ Hk), list_elem_of_here.
    + rewrite dict_setitem_new.
      * rewrite fmap_app. simpl. by rewrite <-app_assoc.
      * apply NoDup_app in Hnd as (_ & Hnd & _).
        intros Hk. apply (Hnd _ Hk), list_elem_of_here.
Qed.
End dict_facts.

(** ** The [json] package: what [dumps] writes, [loads] reads back *)

Ltac Zify.zify_post_hook ::= Z.to_euclidean_division_equations.

Module json_facts.
Import json.
Local Open Scope N_scope.

Section hex.
Lemma hexval_hexdigit d : d < 16 → hexval (hexdigit d) = Some d.
Proof.
  intros Hd. destruct d as [|p]; [done|].
  do 4 (destruct p as [p|p|]; try done); lia.
Qed.

Lemma decode_format_04x n :
  n < 0x10000 → decode_uXXXX (hexdigit (n / 4096 mod 16)) (hexdigit (n / 256 mod 16))
                   (hexdigit (n / 16 mod 16)) (hexdigit (n mod 16)) = Some n.
Proof.
  intros Hn. unfold decode_uXXXX.
  rewrite !hexval_hexdigit by (apply N.mod_upper_bound; lia). simpl.
  f_equal. lia.
Qed.

Lemma lor_disjoint a b k : a mod 2 ^ k = 0 → b < 2 ^ k → N.lor a b = a + b.
Proof.
  intros Ha Hb. rewrite <-N.lxor_lor, <-N.add_nocarry_lxor; try done.
  all: apply N.bits_inj_0; intros i; rewrite N.land_spec.
  all: destruct (N.lt_ge_cases i k) as [Hi|Hi].
  all: try (rewrite <-(N.mod_pow2_bits_low a k i), Ha, N.bits_0 by done; done).
  all: rewrite <-(N.mod_small b (2 ^ k)), N.mod_pow2_bits_high by done;
       apply andb_false_r.
Qed.
End hex.

Section scanstring.
Implicit Types (c : N) (s t rest : list N).

Lemma surrogates_of_astral c :
  0x10000 ≤ c < 0x110000 →
  let n := c - 0x10000 in
  let s1 := N.lor 0xd800 (N.land (N.shiftr n 10) 0x3ff) in
  let s2 := N.lor 0xdc00 (N.land n 0x3ff) in
  s1 = 0xd800 + n / 1024 ∧ s2 = 0xdc00 + n mod 1024 ∧ n / 1024 < 1024.
Proof.
  intros Hc n s1 s2. subst s1 s2.
  assert (n < 0x100000) as Hn by (unfold n; lia).
  assert (n / 1024 < 1024) as Hq by (apply N.Div0.div_lt_upper_bound; lia).
  change 0x3ff with (N.ones 10). rewrite !N.land_ones, N.shiftr_div_pow2.
  change (2 ^ 10) with 1024. rewrite (N.mod_small (n / 1024)) by done.
  split_and!; [| |done].
  - by apply (lor_disjoint _ _ 10).
  - apply (lor_disjoint _ _ 10); [done|]. by apply N.mod_upper_bound.
Qed.

Lemma join_surrogates a b :
  a < 1024 → b < 1024 → N.lor (N.shiftl a 10) b = a * 1024 + b.
Proof.
  intros Ha Hb. rewrite N.shiftl_mul_pow2. change (2 ^ 10) with 1024.
  apply (lor_disjoint _ _ 10); [|done]. by rewrite N.Div0.mod_mul.
Qed.

Lemma scanstring_plain c t :
  ESCAPE_ASCII c = false → scanstring (c :: t) = append_char c (scanstring t).
Proof.
  unfold ESCAPE_ASCII. intros H. simpl.
  destruct (c =? 34) eqn:H1; [by rewrite orb_true_r in H|].
  destruct (c =? 92) eqn:H2; [done|].
  destruct (c <? 32) eqn:H3; [|done].
  simpl in H. apply negb_false_iff, andb_true_iff in H as [H _].
  apply N.leb_le in H. apply N.ltb_lt in H3. lia.
Qed.

Lemma scanstring_short c r t :
  ESCAPE_DCT c = Some r → scanstring (r ++ t) = append_char c (scanstring t).
Proof.
  unfold ESCAPE_DCT. intros H.
  repeat match type of H with
         | (if ?c =? ?k then _ else _) = _ =>
             destruct (N.eqb_spec c k) as [->|_]; [by injection H as <-|]
         end.
  done.
Qed.

Lemma scanstring_u_eq h1 h2 h3 h4 t :
  scanstring (92 :: 117 :: h1 :: h2 :: h3 :: h4 :: t) =
  match decode_uXXXX h1 h2 h3 h4 with
  | None => Raises JSONDecodeError
  | Some uni =>
      match t with
      | b :: u :: s4 =>
          if is_high uni && (b =? 92) && (u =? 117) then
            match s4 with
            | g1 :: g2 :: g3 :: g4 :: s5 =>
                match decode_uXXXX g1 g2 g3 g4 with
                | None => Raises JSONDecodeError
                | Some uni2 =>
                    if is_low uni2 then
                      append_char
                        (0x10000 + N.lor (N.shiftl (uni - 0xd800) 10) (uni2 - 0xdc00))
                        (scanstring s5)
                    else append_char uni (scanstring t)
                end
            | _ => Raises JSONDecodeError
            end
          else append_char uni (scanstring t)
      | _ => append_char uni (scanstring t)
      end
  end.
Proof. destruct t as [|b [|u s4]]; reflexivity. Qed.

Lemma scanstring_u c t :
  c < 0x10000 → is_high c && low_escape_follows t = false →
  scanstring (92 :: 117 :: format_04x c ++ t) = append_char c (scanstring t).
Proof.
  intros Hc H. unfold format_04x. cbn [app].
  rewrite scanstring_u_eq, decode_format_04x by done.
  destruct t as [|b [|u s4]]; [done..|].
  destruct (is_high c); [|done]. cbn [andb] in *.
  unfold low_escape_follows in H.
  destruct (b =? 92); [|done].
  destruct (u =? 117); [|done]. cbn [andb] in *.
  destruct s4 as [|g1 [|g2 [|g3 [|g4 s5]]]]; try done.
  destruct (decode_uXXXX g1 g2 g3 g4); [|done]. by rewrite H.
Qed.

Lemma scanstring_astral c t :
  0x10000 ≤ c < 0x110000 →
  scanstring (replace c ++ t) = append_char c (scanstring t).
Proof.
  intros Hc. destruct (surrogates_of_astral c Hc) as (Hs1 & Hs2 & Hq).
  assert ((c - 0x10000) mod 1024 < 1024) as Hr by (by apply N.mod_upper_bound).
  unfold replace.
  assert (ESCAPE_DCT c = None) as ->.
  { unfold ESCAPE_DCT.
    repeat match goal with
           | |- (if ?c =? ?k then _ else _) = _ =>
               destruct (N.eqb_spec c k); [lia|]
           end. done. }
  destruct (N.ltb_spec c 0x10000); [lia|]. cbv zeta.
  rewrite Hs1, Hs2. unfold format_04x. cbn [str app ord N_of_ascii].
  change (N_of_digits _) with 92 at 1. change (N_of_digits _) with 117 at 1.
  change (N_of_digits _) with 92 at 1. change (N_of_digits _) with 117 at 1.
  rewrite scanstring_u_eq, !decode_format_04x by lia.
  assert (is_high (0xd800 + (c - 0x10000) / 1024) = true) as ->.
  { unfold is_high. apply andb_true_iff. split; apply N.leb_le; lia. }
  assert (is_low (0xdc00 + (c - 0x10000) mod 1024) = true) as ->.
  { unfold is_low. apply andb_true_iff. split; apply N.leb_le; lia. }
  cbn [andb N.eqb Pos.eqb].
  replace (0xd800 + (c - 0x10000) / 1024 - 0xd800) with ((c - 0x10000) / 1024) by lia.
  replace (0xdc00 + (c - 0x10000) mod 1024 - 0xdc00) with ((c - 0x10000) mod 1024) by lia.
  rewrite join_surrogates by done. f_equal. lia.
Qed.

Lemma ESCAPE_DCT_None c :
  ESCAPE_DCT c = None → c ≠ 92 ∧ c ≠ 34.
Proof.
  unfold ESCAPE_DCT.
  destruct (N.eqb_spec c 92); [done|]. by destruct (N.eqb_spec c 34).
Qed.

Lemma replace_u c :
  ESCAPE_DCT c = None → c < 0x10000 → replace c = 92 :: 117 :: format_04x c.
Proof.
  intros H Hc. unfold replace. rewrite H.
  by destruct (N.ltb_spec c 0x10000); [|lia].
Qed.

Lemma low_escape_follows_escape s rest :
  is_str s →
  match s with c :: _ => is_low c = false | [] => True end →
  low_escape_follows (escape s ++ 34 :: rest) = false.
Proof.
  destruct s as [|c s']; [done|]. intros [Hc _]%Forall_cons Hlow.
  unfold escape. cbn [flat_map]. rewrite <-app_assoc.
  destruct (ESCAPE_ASCII c) eqn:Hesc.
  - destruct (ESCAPE_DCT c) as [r|] eqn:Hdct.
    + unfold replace. rewrite Hdct. revert Hdct. unfold ESCAPE_DCT.
      repeat match goal with
             | |- (if ?c =? ?k then _ else _) = _ → _ =>
                 destruct (N.eqb_spec c k) as [->|_]; [by intros [= <-]|]
             end.
      done.
    + destruct (N.lt_ge_cases c 0x10000) as [Hlt|Hge].
      * rewrite replace_u by done. unfold format_04x. cbn [app].
        unfold low_escape_follows. by rewrite decode_format_04x.
      * destruct (surrogates_of_astral c) as (Hs1 & Hs2 & Hq); [lia|].
        unfold replace. rewrite Hdct.
        destruct (N.ltb_spec c 0x10000); [lia|]. cbv zeta.
        rewrite Hs1. unfold format_04x. cbn [str app].
        unfold low_escape_follows.
        change (N_of_ascii _) with 92 at 1. change (N_of_ascii _) with 117 at 1.
        cbn [N.eqb Pos.eqb andb].
        rewrite decode_format_04x by lia.
        unfold is_low. apply andb_false_iff. left. apply N.leb_gt. lia.
  - cbn [app]. unfold low_escape_follows.
    unfold ESCAPE_ASCII in Hesc. destruct (c =? 92); done.
Qed.

(** What the encoder writes for a [str], the decoder reads back, unless
    the [str] has a high surrogate followed by a low one. *)
Lemma scanstring_escape s rest :
  is_str s → has_surrogate_pair s = false →
  scanstring (escape s ++ 34 :: rest) = Returns (s, rest).
Proof.
  induction s as [|c s' IH]; [done|].
  intros Hstr Hpair. pose proof Hstr as [Hc Hstr']%Forall_cons.
  assert (has_surrogate_pair s' = false
          ∧ (is_high c = true →
             match s' with c' :: _ => is_low c' = false | [] => True end))
    as [Hpair' Hnext].
  { destruct s' as [|c' s'']; [done|]. cbn [has_surrogate_pair] in Hpair.
    apply orb_false_iff in Hpair as [H1 H2]. split; [done|].
    intros Hh. by rewrite Hh in H1. }
  unfold escape. cbn [flat_map]. rewrite <-app_assoc.
  fold (escape s').
  destruct (ESCAPE_ASCII c) eqn:Hesc.
  - destruct (ESCAPE_DCT c) as [r|] eqn:Hdct.
    + unfold replace at 1. rewrite Hdct.
      by rewrite (scanstring_short c), IH.
    + destruct (N.lt_ge_cases c 0x10000) as [Hlt|Hge].
      * rewrite replace_u by done. cbn [app].
        rewrite scanstring_u, IH; [done..|].
        destruct (is_high c); [|done].
        by apply low_escape_follows_escape; [|apply Hnext].
      * by rewrite scanstring_astral, IH.
  - cbn [app]. by rewrite scanstring_plain, IH.
Qed.
End scanstring.

Section object_items.
Variable so : list N → outcome (pyval * list N).
Variable lvl : nat.
Variable P : pyval → Prop.
Hypothesis so_value : ∀ v c rest,
  P v → c = 44 ∨ c = 10 →
  so (skip_ws (iterencode (S lvl) v ++ c :: rest)) = Returns (v, c :: rest).

Let sep : list N := str "," ++ newline_indent (S lvl).
Let item (kv : list N * pyval) : list N :=
  py_encode_basestring_ascii kv.1 ++ str ": " ++ iterencode (S lvl) kv.2.

Lemma join_cons (sp c : list N) cs :
  join sp (c :: cs) = c ++ match cs with [] => [] | _ :: _ => sp ++ join sp cs end.
Proof. destruct cs; [by rewrite app_nil_r|done]. Qed.

Lemma skip_ws_indent n c t :
  is_ws c = false → skip_ws (10 :: List.repeat 32 n ++ c :: t) = c :: t.
Proof.
  intros Hc. cbn [skip_ws]. change (is_ws 10) with true. cbv iota.
  induction n as [|m IH]; cbn [List.repeat app skip_ws]; [by rewrite Hc|done].
Qed.

Lemma skip_ws_ws c t : is_ws c = true → skip_ws (c :: t) = skip_ws t.
Proof. intros H. cbn [skip_ws]. by rewrite H. Qed.

Lemma skip_ws_not_ws c t : is_ws c = false → skip_ws (c :: t) = c :: t.
Proof. intros H. cbn [skip_ws]. by rewrite H. Qed.

(** One turn of the loop, up to the character after the value. *)
Lemma object_items_turn k v c t n :
  good k → P v → c = 44 ∨ c = 10 →
  object_items so (S n)
    (escape k ++ 34 :: str ": " ++ iterencode (S lvl) v ++ c :: t)
  = match skip_ws (c :: t) with
    | [] => Raises JSONDecodeError
    | c :: s4 =>
        if c =? ord "}" then Returns ([(k, v)], s4)
        else if c =? ord "," then
          match skip_ws s4 with
          | c :: s5 =>
              if c =? 34 then
                '(pairs, rest) ← object_items so n s5;
                Returns ((k, v) :: pairs, rest)
              else Raises JSONDecodeError
          | [] => Raises JSONDecodeError
          end
        else Raises JSONDecodeError
    end.
Proof.
  intros [Hk1 Hk2] Hv Hc. cbn [object_items].
  rewrite scanstring_escape by done. cbn [mbind outcome_bind].
  change (str ": ") with [58; 32]. cbn [app].
  rewrite (skip_ws_not_ws 58) by done. change (58 =? ord ":") with true.
  cbv iota. rewrite (skip_ws_ws 32) by done.
  rewrite so_value by done. done.
Qed.

Lemma object_items_encoded d : ∀ k v rest n,
  good k → P v → Forall (λ kv, good kv.1 ∧ P kv.2) d → (length d < n)%nat →
  object_items so n
    (escape k ++ 34 :: str ": " ++ iterencode (S lvl) v
     ++ match d with [] => [] | _ :: _ => sep ++ join sep (map item d) end
     ++ newline_indent lvl ++ 125 :: rest)
  = Returns ((k, v) :: d, rest).
Proof.
  induction d as [|[k' v'] d IH]; intros k v rest n Hk Hv Hd Hn;
    (destruct n as [|n]; [simpl in Hn; lia|]).
  - cbn [app]. unfold newline_indent. cbn [app].
    rewrite object_items_turn by auto.
    by rewrite (skip_ws_indent _ 125).
  - apply Forall_cons in Hd as [[Hk' Hv'] Hd]. cbn [fst snd] in *.
    subst sep. change (str ",") with [44]. cbn [app].
    rewrite object_items_turn by auto.
    rewrite (skip_ws_not_ws 44) by done.
    change (44 =? ord "}") with false. change (44 =? ord ",") with true.
    cbv iota. cbn [map]. rewrite join_cons. subst item. cbn [fst snd].
    unfold py_encode_basestring_ascii at 1. rewrite <-!app_assoc.
    unfold newline_indent at 1. cbn [app].
    rewrite (skip_ws_indent _ 34) by done.
    change (34 =? 34) with true. cbv iota.
    specialize (IH k' v' rest n Hk' Hv' Hd).
    assert (length d < n)%nat as Hn' by (simpl in Hn; lia).
    specialize (IH Hn'). revert IH.
    change (str ",") with [44]. unfold newline_indent.
    destruct d as [|kv d']; cbn [map app]; rewrite <-?app_assoc; cbn [app];
      by intros ->.
Qed.

Lemma join_items_length d : (length d ≤ length (join sep (map item d)))%nat.
Proof.
  induction d as [|kv d IH]; [done|]. cbn [map]. rewrite join_cons.
  subst item. cbn beta. unfold py_encode_basestring_ascii at 1.
  destruct d as [|kv' d']; cbn [map] in *; rewrite ?length_app in *;
    cbn [length] in *; lia.
Qed.

Lemma JSONObject_encoded k v d rest :
  is_dict ((k, v) :: d) → good k → P v →
  Forall (λ kv, good kv.1 ∧ P kv.2) d →
  JSONObject so
    (newline_indent (S lvl) ++ join sep (map item ((k, v) :: d))
     ++ newline_indent lvl ++ 125 :: rest)
  = Returns (VDict ((k, v) :: d), rest).
Proof.
  intros Hdict Hk Hv Hd. cbn [map]. rewrite join_cons.
  unfold item at 1. cbn [fst snd]. unfold py_encode_basestring_ascii at 1.
  rewrite <-!app_assoc. unfold JSONObject, newline_indent at 1.
  cbn [app]. rewrite (skip_ws_indent _ 34) by done.
  change (34 =? ord "}") with false. change (34 =? 34) with true. cbv iota.
  pose proof (join_items_length d) as Hlen.
  pose proof (object_items_encoded d k v rest) as Hitems.
  revert Hitems Hlen. fold sep. unfold item.
  destruct d as [|kv d']; cbn [map app]; rewrite <-?app_assoc; cbn [app].
  - intros Hitems _. rewrite Hitems; [|done..|].
    + cbn [mbind outcome_bind]. by rewrite dict_of_pairs_id.
    + rewrite length_app. cbn [length]. lia.
  - intros Hitems Hlen. rewrite Hitems; [|done..|].
    + cbn [mbind outcome_bind]. by rewrite dict_of_pairs_id.
    + rewrite !length_app in *. cbn [length] in *.
      rewrite !length_app in *. cbn [length] in *. rewrite ?length_app. lia.
Qed.
End object_items.

Section scan_once.
Implicit Types (s rest : list N) (d : list (list N * pyval)).

Lemma scan_once_str depth lvl s rest :
  good s →
  scan_once (S depth) (iterencode lvl (VStr s) ++ rest) = Returns (VStr s, rest).
Proof.
  intros [Hs1 Hs2]. cbn [iterencode scan_once].
  unfold py_encode_basestring_ascii. cbn [app]. rewrite <-app_assoc. cbn [app].
  unfold scan_once_body. change (34 =? 34) with true. cbv iota.
  by rewrite scanstring_escape.
Qed.

Lemma scan_once_dict depth lvl (P : pyval → Prop) d rest :
  (∀ v c rest, P v → c = 44 ∨ c = 10 →
     scan_once depth (skip_ws (iterencode (S lvl) v ++ c :: rest))
     = Returns (v, c :: rest)) →
  is_dict d → Forall (λ kv, good kv.1 ∧ P kv.2) d →
  scan_once (S depth) (iterencode lvl (VDict d) ++ rest) = Returns (VDict d, rest).
Proof.
  intros Hso Hdict Hd. cbn [scan_once]. unfold scan_once_body.
  destruct d as [|[k v] d']; [done|].
  apply Forall_cons in Hd as [[Hk Hv] Hd]. cbn [fst snd] in *.
  pose proof (JSONObject_encoded (scan_once depth) lvl P Hso k v d' rest
                Hdict Hk Hv Hd) as H.
  revert H. cbn [iterencode]. change (str "{") with [123].
  change (str "}") with [125]. rewrite <-?app_assoc. cbn [app].
  change (123 =? 34) with false. change (123 =? ord "{") with true. cbv iota.
  done.
Qed.

(** A [dict] from [str] to [str], at any level of indentation. *)
Lemma scan_once_str_dict depth lvl d rest :
  is_dict d → Forall (λ kv, good kv.1 ∧ ∃ s, kv.2 = VStr s ∧ good s) d →
  scan_once (S (S depth)) (iterencode lvl (VDict d) ++ rest)
  = Returns (VDict d, rest).
Proof.
  intros Hdict Hd.
  apply (scan_once_dict _ _ (λ v, ∃ s, v = VStr s ∧ good s)); [|done..].
  intros v c t (s & -> & Hs) _.
  rewrite <-(scan_once_str depth (S lvl) s (c :: t)) by done.
  by cbn [iterencode py_encode_basestring_ascii app skip_ws].
Qed.

(** The document [save] writes for a [dict] from [str] to [str]. *)
Lemma loads_dumps_document d :
  is_dict d → Forall (λ kv, good kv.1 ∧ ∃ s, kv.2 = VStr s ∧ good s) d →
  loads (dumps (VDict [(str "mappings", VDict d)]))
  = Returns (VDict [(str "mappings", VDict d)]).
Proof.
  intros Hdict Hd. unfold loads, dumps.
  set (doc := VDict [(str "mappings", VDict d)]).
  assert (∃ t, iterencode 0 doc = 123 :: 10 :: t) as [t Ht] by (by eexists).
  assert (scan_once (S (length (iterencode 0 doc))) (iterencode 0 doc ++ [])
          = Returns (doc, [])) as Hscan.
  { apply (scan_once_dict _ _ (λ v, v = VDict d)).
    - intros v c r -> _. rewrite Ht. cbn [length].
      rewrite <-(scan_once_str_dict (length t) 1 d (c :: r)) by done.
      by destruct d.
    - apply NoDup_singleton.
    - apply Forall_singleton. split; [|done]. split; [|done].
      unfold is_str. cbn [fst str]. by repeat (apply Forall_cons_2; [done|]). }
  rewrite app_nil_r in Hscan. rewrite Ht in Hscan |- *.
  cbn [startswith]. change (123 =? 65279) with false. cbn [andb].
  rewrite (skip_ws_not_ws 123) by done. by rewrite Hscan.
Qed.
End scan_once.

End json_facts.
(** ** The class *)

Ltac unfold_M :=
  unfold mbind, mret, M_bind, M_ret, lift, raise, deref, store, alloc,
    try_except, logging.info, logging.warning, logging.error, logging.emit,
    pathlib.exists_, pathlib.read_text, pathlib.write_text in *.

Section class_facts.
Implicit Types (w : world) (self : AgentCredentialConfig).
Implicit Types (d : list (list N * pyval)) (provider : list N).
Implicit Types (p : list (list N)) (m : pyval).

Lemma fresh_loc_None w : heap w !! fresh (dom (heap w)) = None.
Proof. apply not_elem_of_dom, is_fresh. Qed.

(** *** [load], case by case *)

(** What [exists] answers. *)
Lemma exists_present w q n :
  disk w !! q = Some n → pathlib.exists_ q w = (Returns true, w).
Proof. intros Hq. unfold pathlib.exists_. by rewrite Hq. Qed.

Lemma exists_false_inv w q :
  (pathlib.exists_ q w).1 = Returns false →
  disk w !! q = None ∧ pathlib.stat_error w q = false.
Proof.
  unfold pathlib.exists_. destruct (disk w !! q); [done|].
  by destruct (pathlib.stat_error w q).
Qed.

(** In a directory that can be searched a name that is not too long and is
    not there is reported as not there. *)
Lemma exists_in_directory w p (name : list N) writable :
  disk w !! (p / name) = None →
  disk w !! p = Some (Directory writable) →
  pathlib.name_too_long name = false →
  pathlib.exists_ (p / name) w = (Returns false, w).
Proof.
  intros Hnone Hdir Hname. unfold pathlib.exists_. rewrite Hnone.
  unfold pathlib.stat_error, pathlib.truediv. rewrite reverse_snoc.
  cbn [pathlib.stat_error_rev]. by rewrite reverse_involutive, Hdir, Hname.
Qed.

Lemma CONFIG_FILENAME_short : pathlib.name_too_long CONFIG_FILENAME = false.
Proof. reflexivity. Qed.

Lemma load_absent w p :
  (pathlib.exists_ (p / CONFIG_FILENAME) w).1 = Returns false →
  ∃ self w',
    load p w = (Returns self, w')
    ∧ agent_path self = p
    ∧ heap w' !! mappings self = Some (VDict [])
    ∧ disk w' = disk w ∧ log w' = log w.
Proof.
  intros [Hnone Hstat]%exists_false_inv. unfold load. unfold_M.
  rewrite Hnone, Hstat.
  eexists _, _. split; [done|]. cbn. split_and!; try done.
  apply lookup_insert_eq.
Qed.

(** An existence check that fails: [load] calls [exists] before its [try],
    and the [OSError] leaves [load]. *)
Lemma load_stat_error w p :
  (pathlib.exists_ (p / CONFIG_FILENAME) w).1 = Raises OSError →
  load p w = (Raises OSError, w).
Proof.
  unfold load. unfold_M. destruct (disk w !! (p / CONFIG_FILENAME)); [done|].
  by destruct (pathlib.stat_error w (p / CONFIG_FILENAME)).
Qed.

(** A file that may not be read, or a directory in its place. *)
Lemma load_unreadable w p :
  (∃ n, disk w !! (p / CONFIG_FILENAME) = Some n
        ∧ ∀ writable s, n ≠ File true writable s) →
  ∃ self w',
    load p w = (Returns self, w')
    ∧ heap w' !! mappings self = Some (VDict [])
    ∧ log w'
      = log w ++ [(WARNING, str "Failed to load agent credential config: ")].
Proof.
  intros (n & Hfile & Hn). unfold load. unfold_M. rewrite Hfile.
  cbv beta iota. rewrite Hfile.
  destruct n as [[] writable s|writable|]; [by destruct (Hn writable s)|..];
    (eexists _, _; split; [done|]; cbn; split; [apply lookup_insert_eq|done]).
Qed.

(** A file whose text is not JSON. *)
Lemma load_malformed w p writable s :
  disk w !! (p / CONFIG_FILENAME) = Some (File true writable s) →
  json.loads s = Raises JSONDecodeError →
  ∃ self w',
    load p w = (Returns self, w')
    ∧ heap w' !! mappings self = Some (VDict [])
    ∧ log w'
      = log w ++ [(WARNING, str "Failed to load agent credential config: ")].
Proof.
  intros Hfile Hloads. unfold load. unfold_M. rewrite Hfile.
  cbv beta iota. rewrite Hfile, Hloads.
  eexists _, _; split; [done|]; cbn; split; [apply lookup_insert_eq|done].
Qed.

(** A file whose text is a JSON object. *)
Lemma load_dict w p writable s d :
  disk w !! (p / CONFIG_FILENAME) = Some (File true writable s) →
  json.loads s = Returns (VDict d) →
  ∃ self w',
    load p w = (Returns self, w')
    ∧ agent_path self = p
    ∧ heap w' !! mappings self
      = Some (from_option id (VDict []) (dict_get (str "mappings") d))
    ∧ disk w' = disk w ∧ log w' = log w.
Proof.
  intros Hfile Hloads. unfold load. unfold_M. rewrite Hfile.
  cbv beta iota. rewrite Hfile, Hloads.
  cbn [py_get]. eexists _, _. split; [done|]. cbn. split_and!; try done.
  apply lookup_insert_eq.
Qed.

(** A file whose text is JSON but not an object: [data.get] raises
    [AttributeError], which is not among the exceptions [load] handles. *)
Lemma load_not_dict w p writable s v :
  disk w !! (p / CONFIG_FILENAME) = Some (File true writable s) →
  json.loads s = Returns v →
  (∀ d, v ≠ VDict d) →
  load p w = (Raises AttributeError, w).
Proof.
  intros Hfile Hloads Hv. unfold load. unfold_M. rewrite Hfile.
  cbv beta iota. rewrite Hfile, Hloads.
  destruct v; try done. by destruct (Hv d).
Qed.

(** *** [save] *)

Lemma save_write_ok w self m :
  heap w !! mappings self = Some m →
  (pathlib.write_text (agent_path self / CONFIG_FILENAME)
     (json.dumps (VDict [(str "mappings", m)])) w).1 = Returns () →
  ∃ readable w',
    save self w = (Returns (), w')
    ∧ disk w' = <[agent_path self / CONFIG_FILENAME :=
                    File readable true (json.dumps (VDict [(str "mappings", m)]))]>
                  (disk w)
    ∧ heap w' = heap w
    ∧ (∀ r wr s, disk w !! (agent_path self / CONFIG_FILENAME)
                 = Some (File r wr s) → readable = r)
    ∧ (disk w !! (agent_path self / CONFIG_FILENAME) = None → readable = true).
Proof.
  intros Hm. unfold save. unfold_M. rewrite Hm.
  destruct (disk w !! (agent_path self / CONFIG_FILENAME))
    as [[readable [] content|writable|]|]; try done.
  - intros _. eexists _, _. split_and!; [done..| |done]. by intros ??? [= -> _ _].
  - destruct (disk w !! pathlib.parent (agent_path self / CONFIG_FILENAME))
      as [[? ? ?|[]|]|]; try done.
    intros _. by eexists _, _.
Qed.

Lemma save_write_fails w self m :
  heap w !! mappings self = Some m →
  (pathlib.write_text (agent_path self / CONFIG_FILENAME)
     (json.dumps (VDict [(str "mappings", m)])) w).1 = Raises OSError →
  save self w
  = (Raises OSError,
     set_log (log w ++ [(ERROR, str "Failed to save agent credential config: ")]) w).
Proof.
  intros Hm. unfold save. unfold_M. rewrite Hm.
  destruct (disk w !! (agent_path self / CONFIG_FILENAME))
    as [[readable [] content|writable|]|]; try done.
  destruct (disk w !! pathlib.parent (agent_path self / CONFIG_FILENAME))
    as [[? ? ?|[]|]|]; done.
Qed.

(** [save] returns only if the write did. *)
Lemma save_returns_inv w self m :
  heap w !! mappings self = Some m →
  (save self w).1 = Returns () →
  (pathlib.write_text (agent_path self / CONFIG_FILENAME)
     (json.dumps (VDict [(str "mappings", m)])) w).1 = Returns ().
Proof.
  intros Hm. unfold save. unfold_M. rewrite Hm.
  destruct (disk w !! (agent_path self / CONFIG_FILENAME))
    as [[readable [] content|writable|]|]; try done.
  destruct (disk w !! pathlib.parent (agent_path self / CONFIG_FILENAME))
    as [[? ? ?|[]|]|]; done.
Qed.

(** *** The table behind [list_mappings] *)

Lemma table_of_list_mappings w self d :
  heap w !! mappings self = Some (VDict d) →
  table_of (list_mappings self) w = Some (VDict d).
Proof.
  intros Hm. unfold table_of, list_mappings. unfold_M. rewrite Hm.
  cbn [py_dict heap set_heap]. apply lookup_insert_eq.
Qed.

Lemma roundtrip_premise d :
  is_str_dict d → no_surrogate_pairs d = true →
  Forall (λ kv, good kv.1 ∧ ∃ s, kv.2 = VStr s ∧ good s) d.
Proof.
  intros [_ Hstr] Hpairs. unfold no_surrogate_pairs in Hpairs.
  apply Is_true_true, forallb_True in Hpairs.
  induction d as [|kv d IH]; [done|].
  apply Forall_cons in Hstr as [(Hk & s & Hv & Hs) Hstr].
  apply Forall_cons in Hpairs as [[Hpk Hpv]%Is_true_true%andb_true_iff Hpairs].
  apply Forall_cons. split; [|by apply IH].
  rewrite Hv in Hpv. apply negb_true_iff in Hpk, Hpv.
  split; [done|]. by exists s.
Qed.

Lemma example_table_is_str_dict : is_str_dict example_table.
Proof.
  split.
  - unfold is_dict. apply (bool_decide_unpack _). by vm_compute.
  - repeat (apply Forall_cons_2 || apply Forall_nil_2);
      (split; [|eexists; split; [done|]]);
      unfold is_str; cbn [fst str];
      repeat (apply Forall_cons_2 || apply Forall_nil_2); done.
Qed.
End class_facts.

(** * The specification, claim by claim *)

Section claims.
Implicit Types (w : world) (self : AgentCredentialConfig).
Implicit Types (d : list (list N * pyval)) (provider : list N).
Implicit Types (p : list (list N)) (m : pyval).

(** Claim C1, at an input where it fails.  The claim: whatever
    [credentials.json] holds, [load] raises nothing and returns a usable
    instance.  For a file that holds the JSON array [[]], [json.loads]
    returns a list, [data.get] raises [AttributeError], and [load] raises it
    in turn, leaving the world as it was. *)
Theorem load_json_array_raises :
  json.loads (str "[]") = Returns (VList [])
  ∧ load agent (world_of VNone (with_file (File true true (str "[]"))))
    = (Raises AttributeError,
       world_of VNone (with_file (File true true (str "[]")))).
Proof. split; by vm_compute. Qed.

(** Claim C2, at an input where it fails.  The claim: [load] returns the
    empty mapping whenever the value of the key [mappings] is not a mapping.
    A file whose [mappings] is the number five parses as JSON; [load] returns
    an instance whose [mappings] is that number, not the empty mapping, and
    logs nothing.  The instance cannot be used: [get_integration_id] raises
    [AttributeError] on it, [has_mapping] raises [TypeError], and so does
    [set_integration_id]. *)
Theorem load_keeps_non_mapping :
  json.loads five_text = Returns (VDict [(str "mappings", VInt 5)])
  ∧ table_of (loaded_mappings agent)
      (world_of VNone (with_file (File true true five_text)))
    = Some (VInt 5)
  ∧ VInt 5 ≠ VDict []
  ∧ log (load agent (world_of VNone (with_file (File true true five_text)))).2
    = []
  ∧ (get_integration_id_for_agent agent (str "google")
       (world_of VNone (with_file (File true true five_text)))).1
    = Raises AttributeError
  ∧ (loaded_has_mapping agent (str "google")
       (world_of VNone (with_file (File true true five_text)))).1
    = Raises TypeError
  ∧ (set_integration_id_for_agent agent (str "google") (str "g-id")
       (world_of VNone (with_file (File true true five_text)))).1
    = Raises TypeError.
Proof. split_and!; try done; by vm_compute. Qed.

(** Claim C3 as stated, refuted twice.  First: a file that may be written
    but not read; [save] succeeds, [load] cannot read the file and falls
    back to the empty mapping.  Second: a key made of a high surrogate and
    a low surrogate; [json.dumps] writes two [\u] escapes and [json.loads]
    reads them as one character. *)
Lemma roundtrip_counterexamples :
  ((save example_config
      (world_of (VDict example_table) (with_file (File false true [])))).1
   = Returns ()
   ∧ is_str_dict example_table
   ∧ table_of (list_mappings example_config)
       (world_of (VDict example_table) (with_file (File false true [])))
     = Some (VDict example_table)
   ∧ table_of (save_then_load example_config)
       (world_of (VDict example_table) (with_file (File false true [])))
     = Some (VDict []))
  ∧ ((save example_config (world_of (VDict surrogate_table) directory_only)).1
     = Returns ()
     ∧ is_str_dict surrogate_table
     ∧ table_of (list_mappings example_config)
         (world_of (VDict surrogate_table) directory_only)
       = Some (VDict [([0xd83d; 0xde00]%N, VStr (str "x"))])
     ∧ table_of (save_then_load example_config)
         (world_of (VDict surrogate_table) directory_only)
       = Some (VDict [([0x1f600]%N, VStr (str "x"))])).
Proof.
  assert (is_str_dict surrogate_table) as Hsurrogate.
  { split; [apply NoDup_singleton|].
    apply Forall_singleton. split; [|eexists; split; [done|]];
      unfold is_str; cbn [fst str];
      by repeat (apply Forall_cons_2 || apply Forall_nil_2). }
  split.
  - split; [by vm_compute|]. split; [apply example_table_is_str_dict|].
    split; by vm_compute.
  - split; [by vm_compute|]. split; [done|]. split; by vm_compute.
Qed.

(** Claim C3, amended.  Round trip: for an instance whose table is a
    mapping from string to string in which no key or value has a high
    surrogate right before a low surrogate, if [save] succeeds and the file
    it leaves can be read, then [load(agent_path).list_mappings()] equals
    [list_mappings()] at the time of the save. *)
Theorem save_load_roundtrip w self d :
  heap w !! mappings self = Some (VDict d) →
  is_str_dict d →
  no_surrogate_pairs d = true →
  (save self w).1 = Returns () →
  (∃ writable s,
     disk (save self w).2 !! (agent_path self / CONFIG_FILENAME)
     = Some (File true writable s)) →
  table_of (save_then_load self) w = table_of (list_mappings self) w
  ∧ table_of (list_mappings self) w = Some (VDict d).
Proof.
  intros Hm Hstr Hpairs Hsave (wr & s & Hreadable).
  rewrite (table_of_list_mappings w self d Hm). split; [|done].
  destruct (save_write_ok w self (VDict d) Hm (save_returns_inv w self _ Hm Hsave))
    as (r & w1 & Hsave1 & Hdisk & Hheap & _).
  rewrite Hsave1 in Hreadable. cbn [snd] in Hreadable.
  rewrite Hdisk, lookup_insert_eq in Hreadable.
  injection Hreadable as -> _ _.
  destruct (load_dict w1 (agent_path self) true
              (json.dumps (VDict [(str "mappings", VDict d)]))
              [(str "mappings", VDict d)])
    as (loaded & w2 & Hload & _ & Hloaded & _).
  { rewrite Hdisk. apply lookup_insert_eq. }
  { apply json_facts.loads_dumps_document; [apply Hstr|].
    by apply roundtrip_premise. }
  unfold table_of, save_then_load.
  unfold mbind at 1 2. unfold M_bind at 1 2. rewrite Hsave1, Hload.
  fold (table_of (list_mappings loaded) w2).
  apply table_of_list_mappings. rewrite Hloaded. cbn [dict_get].
  by rewrite decide_True.
Qed.

Lemma save_load_roundtrip_witness :
  table_of (save_then_load example_config)
    (world_of (VDict example_table) directory_only)
  = table_of (list_mappings example_config)
      (world_of (VDict example_table) directory_only)
  ∧ table_of (list_mappings example_config)
      (world_of (VDict example_table) directory_only)
    = Some (VDict example_table).
Proof.
  apply save_load_roundtrip.
  - reflexivity.
  - apply example_table_is_str_dict.
  - reflexivity.
  - vm_compute. reflexivity.
  - eexists _, _. vm_compute. reflexivity.
Defined.

(** Claim C4.  When the write succeeds, [save] replaces the content of
    [<agent_path>/credentials.json] by the indented JSON text of
    [{"mappings": mappings}] and touches no other path: what the file held
    before, other top-level keys included, is gone, and [mappings] is the
    only key written.  The table in memory is unchanged. *)
Theorem save_writes_document w self m :
  heap w !! mappings self = Some m →
  (pathlib.write_text (agent_path self / CONFIG_FILENAME)
     (json.dumps (VDict [(str "mappings", m)])) w).1 = Returns () →
  ∃ readable w',
    save self w = (Returns (), w')
    ∧ disk w' = <[agent_path self / CONFIG_FILENAME :=
                    File readable true (json.dumps (VDict [(str "mappings", m)]))]>
                  (disk w)
    ∧ heap w' = heap w.
Proof.
  intros Hm Hwrite.
  destruct (save_write_ok w self m Hm Hwrite) as (r & w' & H1 & H2 & H3 & _).
  by exists r, w'.
Qed.

Lemma save_writes_document_witness :
  ∃ readable w',
    save example_config
      (world_of (VDict example_table)
         (with_file (File true true (json.dumps (VDict [(str "other", VInt 1)])))))
    = (Returns (), w')
    ∧ disk w'
      = <[agent / CONFIG_FILENAME :=
            File readable true
              (json.dumps (VDict [(str "mappings", VDict example_table)]))]>
          (with_file (File true true (json.dumps (VDict [(str "other", VInt 1)]))))
    ∧ heap w' = {[ 1%positive := VDict example_table ]}.
Proof.
  refine (save_writes_document
            (world_of (VDict example_table) (with_file (File true true _)))
            example_config (VDict example_table) _ _).
  - reflexivity.
  - vm_compute. reflexivity.
Defined.

(** Claim C5.  When the write fails with an I/O error, [save] logs an error
    and raises the same [OSError]; the table in memory and the files are as
    they were. *)
Theorem save_failure_propagates w self m :
  heap w !! mappings self = Some m →
  (pathlib.write_text (agent_path self / CONFIG_FILENAME)
     (json.dumps (VDict [(str "mappings", m)])) w).1 = Raises OSError →
  ∃ w',
    save self w = (Raises OSError, w')
    ∧ heap w' = heap w
    ∧ disk w' = disk w
    ∧ log w'
      = log w ++ [(ERROR, str "Failed to save agent credential config: ")].
Proof.
  intros Hm Hwrite. rewrite (save_write_fails w self m Hm Hwrite).
  by eexists.
Qed.

Lemma save_failure_propagates_witness :
  ∃ w',
    save example_config (world_of (VDict example_table) ∅)
    = (Raises OSError, w')
    ∧ heap w' = {[ 1%positive := VDict example_table ]}
    ∧ disk w' = ∅
    ∧ log w' = [] ++ [(ERROR, str "Failed to save agent credential config: ")].
Proof.
  refine (save_failure_propagates (world_of (VDict example_table) ∅)
            example_config (VDict example_table) _ _).
  - reflexivity.
  - vm_compute. reflexivity.
Defined.

(** Claim C6, at inputs where it fails.  The claim: for an agent path
    whose directory holds no [credentials.json], [load] raises nothing and
    returns an instance with an empty mapping.  [load] asks [exists] before
    its [try], and [exists] raises the [OSError] of [stat] unless the error
    says the path is not there.  For an agent directory that may not be
    searched, and for an agent path whose name is longer than [NAME_MAX],
    there is no [credentials.json], and [load] raises [OSError]; it logs
    nothing.  Where the same error comes from [read_text], inside the
    [try], [load] logs a warning and returns the empty mapping. *)
Theorem load_without_file_raises :
  (disk (world_of VNone closed_directory) !! (agent / CONFIG_FILENAME) = None
   ∧ load agent (world_of VNone closed_directory)
     = (Raises OSError, world_of VNone closed_directory))
  ∧ (disk (world_of VNone ∅) !! (long_agent / CONFIG_FILENAME) = None
     ∧ load long_agent (world_of VNone ∅) = (Raises OSError, world_of VNone ∅))
  ∧ ∃ self w',
      load agent (world_of VNone (with_file (File false true [])))
      = (Returns self, w')
      ∧ heap w' !! mappings self = Some (VDict [])
      ∧ log w' = [load_warning].
Proof.
  split_and!; [by vm_compute..|].
  eexists _, _. split_and!; by vm_compute.
Qed.

(** Claim C7.  On an instance whose table is a [dict],
    [remove_integration(provider)] returns true exactly when the provider
    had a mapping before the call (what [has_mapping] answers then); after
    a call that returned true, [get_integration_id(provider)] returns
    [None] and a second [remove_integration(provider)] returns false; a
    call that returns false changes nothing. *)
Theorem remove_integration_spec w self d provider :
  heap w !! mappings self = Some (VDict d) →
  is_dict d →
  ∃ w',
    remove_integration self provider w
    = (Returns (dict_contains provider d), w')
    ∧ has_mapping self provider w = (Returns (dict_contains provider d), w)
    ∧ (dict_contains provider d = true →
         get_integration_id self provider w' = (Returns VNone, w')
         ∧ remove_integration self provider w' = (Returns false, w'))
    ∧ (dict_contains provider d = false → w' = w).
Proof.
  intros Hm Hd. unfold remove_integration, has_mapping, get_integration_id.
  unfold_M. rewrite Hm. cbn [py_contains py_delitem].
  destruct (dict_contains provider d) eqn:Hin.
  - eexists. split_and!; [done..| |done]. intros _. cbn [heap set_heap].
    rewrite lookup_insert_eq. cbn [py_get py_contains].
    rewrite dict_get_delitem by done.
    assert (dict_contains provider (dict_delitem provider d) = false) as ->.
    { by apply dict_contains_false, dict_get_delitem. }
    done.
  - by eexists.
Qed.

Lemma remove_integration_spec_witness :
  ∃ w',
    remove_integration example_config (str "google")
      (world_of (VDict example_table) directory_only)
    = (Returns (dict_contains (str "google") example_table), w')
    ∧ has_mapping example_config (str "google")
        (world_of (VDict example_table) directory_only)
      = (Returns (dict_contains (str "google") example_table),
         world_of (VDict example_table) directory_only)
    ∧ (dict_contains (str "google") example_table = true →
         get_integration_id example_config (str "google") w'
         = (Returns VNone, w')
         ∧ remove_integration example_config (str "google") w'
           = (Returns false, w'))
    ∧ (dict_contains (str "google") example_table = false →
         w' = world_of (VDict example_table) directory_only).
Proof.
  refine (remove_integration_spec
            (world_of (VDict example_table) directory_only)
            example_config example_table (str "google") _ _).
  - reflexivity.
  - apply example_table_is_str_dict.
Defined.

(** Claim C8.  On an instance whose table is a [dict], [list_mappings]
    returns a table equal to the instance's own, held by a new object:
    whatever is then done to the returned object, the instance's table and
    every [get_integration_id] result stay what they were. *)
Theorem list_mappings_copy w self d :
  heap w !! mappings self = Some (VDict d) →
  ∃ l w',
    list_mappings self w = (Returns l, w')
    ∧ heap w' !! l = Some (VDict d)
    ∧ heap w !! l = None
    ∧ l ≠ mappings self
    ∧ ∀ v,
        heap (set_heap (<[l := v]> (heap w')) w') !! mappings self
        = Some (VDict d)
        ∧ ∀ provider,
            (get_integration_id self provider
               (set_heap (<[l := v]> (heap w')) w')).1
            = (get_integration_id self provider w).1.
Proof.
  intros Hm. unfold list_mappings, get_integration_id. unfold_M.
  rewrite Hm. cbn [py_dict].
  pose proof (fresh_loc_None w) as Hfresh.
  assert (fresh (dom (heap w)) ≠ mappings self) as Hne by congruence.
  eexists _, _. split; [done|]. cbn [heap set_heap].
  split_and!; [apply lookup_insert_eq|done..|].
  intros v.
  assert (<[fresh (dom (heap w)) := v]>
            (<[fresh (dom (heap w)) := VDict d]> (heap w)) !! mappings self
          = Some (VDict d)) as Hsame.
  { by rewrite !lookup_insert_ne. }
  split; [done|]. intros provider. by rewrite Hsame.
Qed.

Lemma list_mappings_copy_witness :
  ∃ l w',
    list_mappings example_config (world_of (VDict example_table) directory_only)
    = (Returns l, w')
    ∧ heap w' !! l = Some (VDict example_table)
    ∧ heap (world_of (VDict example_table) directory_only) !! l = None
    ∧ l ≠ mappings example_config
    ∧ ∀ v,
        heap (set_heap (<[l := v]> (heap w')) w') !! mappings example_config
        = Some (VDict example_table)
        ∧ ∀ provider,
            (get_integration_id example_config provider
               (set_heap (<[l := v]> (heap w')) w')).1
            = (get_integration_id example_config provider
                 (world_of (VDict example_table) directory_only)).1.
Proof.
  refine (list_mappings_copy (world_of (VDict example_table) directory_only)
            example_config example_table _).
  reflexivity.
Defined.

(** Claim C9.  On an instance whose table is a [dict],
    [set_integration_id(provider, integration_id)] makes
    [get_integration_id(provider)] return [integration_id], whether the
    provider had a mapping or not, leaves the result for every other
    provider as it was, and writes no file. *)
Theorem set_integration_id_spec w self d provider integration_id :
  heap w !! mappings self = Some (VDict d) →
  ∃ w',
    set_integration_id self provider integration_id w = (Returns (), w')
    ∧ get_integration_id self provider w' = (Returns (VStr integration_id), w')
    ∧ (∀ other, other ≠ provider →
         (get_integration_id self other w').1
         = (get_integration_id self other w).1)
    ∧ disk w' = disk w.
Proof.
  intros Hm. unfold set_integration_id, get_integration_id. unfold_M.
  rewrite Hm. cbn [py_setitem]. eexists. split; [done|].
  cbn [heap set_heap disk]. rewrite lookup_insert_eq. cbn [py_get].
  split_and!; [|intros other Hne; cbn [fst]|done].
  - by rewrite dict_get_setitem.
  - by rewrite dict_get_setitem_ne.
Qed.

Lemma set_integration_id_spec_witness :
  ∃ w',
    set_integration_id example_config (str "google") (str "new-id")
      (world_of (VDict example_table) directory_only)
    = (Returns (), w')
    ∧ get_integration_id example_config (str "google") w'
      = (Returns (VStr (str "new-id")), w')
    ∧ (∀ other, other ≠ str "google" →
         (get_integration_id example_config other w').1
         = (get_integration_id example_config other
              (world_of (VDict example_table) directory_only)).1)
    ∧ disk w' = directory_only.
Proof.
  refine (set_integration_id_spec
            (world_of (VDict example_table) directory_only)
            example_config example_table (str "google") (str "new-id") _).
  reflexivity.
Defined.

(** Claim C10.  On an instance whose table is a [dict] with no [None]
    among its values (the declared [dict[str, str]] has none),
    [has_mapping(provider)] returns true exactly when
    [get_integration_id(provider)] returns something other than [None], and
    neither call changes the world. *)
Theorem has_mapping_iff_get w self d provider :
  heap w !! mappings self = Some (VDict d) →
  Forall (λ kv, kv.2 ≠ VNone) d →
  ∃ b v,
    has_mapping self provider w = (Returns b, w)
    ∧ get_integration_id self provider w = (Returns v, w)
    ∧ (b = true ↔ v ≠ VNone).
Proof.
  intros Hm Hd. unfold has_mapping, get_integration_id. unfold_M.
  rewrite Hm. cbn [py_contains py_get]. eexists _, _. split_and!; [done..|].
  rewrite dict_contains_get. destruct (dict_get provider d) as [v|] eqn:Hget.
  - cbn. split; [intros _|by eauto]. intros ->.
    clear Hm. induction d as [|[k' v'] d IH]; [done|].
    apply Forall_cons in Hd as [Hv' Hd]. cbn in Hget.
    case_decide; [|by apply IH]. by injection Hget as ->.
  - cbn. split; [by intros [? ?]|done].
Qed.

Lemma has_mapping_iff_get_witness :
  ∃ b v,
    has_mapping example_config (str "google")
      (world_of (VDict example_table) directory_only)
    = (Returns b, world_of (VDict example_table) directory_only)
    ∧ get_integration_id example_config (str "google")
        (world_of (VDict example_table) directory_only)
      = (Returns v, world_of (VDict example_table) directory_only)
    ∧ (b = true ↔ v ≠ VNone).
Proof.
  refine (has_mapping_iff_get (world_of (VDict example_table) directory_only)
            example_config example_table (str "google") _ _).
  - reflexivity.
  - by repeat (apply Forall_cons_2 || apply Forall_nil_2).
Defined.
End claims.

(** * The tests of the repository, replayed on the model *)

Section tests.
(** [test_load_existing_config] *)
Example test_load_existing_config :
  table_of (loaded_mappings agent)
    (world_of VNone (with_file (File true true existing_text)))
  = Some (VDict [(str "google", VStr (str "Z29vZ2xlOmV4YW1wbGVAZ21haWwuY29t"));
                 (str "hubspot", VStr (str "aHVic3BvdDp3b3JrQGNvbXBhbnkuY29t"))])
  ∧ (get_integration_id_for_agent agent (str "google")
       (world_of VNone (with_file (File true true existing_text)))).1
    = Returns (VStr (str "Z29vZ2xlOmV4YW1wbGVAZ21haWwuY29t")).
Proof. split; by vm_compute. Qed.

(** [test_save_config] *)
Example test_save_config :
  match (set_integration_id example_config (str "google")
           (str "test-integration-id");;
         save example_config) (world_of (VDict []) directory_only) with
  | (Returns (), w) =>
      parsed_file (agent / CONFIG_FILENAME) w
      = Returns (VDict [(str "mappings",
                         VDict [(str "google",
                                 VStr (str "test-integration-id"))])])
  | _ => False
  end.
Proof. by vm_compute. Qed.

(** [test_get_integration_id_not_found] and
    [test_remove_integration_not_found] *)
Example test_not_found :
  ((self ← load agent; get_integration_id self (str "nonexistent"))
     (world_of VNone directory_only)).1 = Returns VNone
  ∧ ((self ← load agent; remove_integration self (str "nonexistent"))
       (world_of VNone directory_only)).1 = Returns false.
Proof. split; by vm_compute. Qed.

(** [test_remove_integration] and [test_has_mapping] *)
Example test_remove_and_has :
  ((self ← load agent;
    set_integration_id self (str "google") (str "test-id");;
    has_google ← has_mapping self (str "google");
    has_hubspot ← has_mapping self (str "hubspot");
    removed ← remove_integration self (str "google");
    after ← get_integration_id self (str "google");
    mret (has_google, has_hubspot, removed, after))
     (world_of VNone directory_only)).1
  = Returns (true, false, true, VNone).
Proof. by vm_compute. Qed.

(** [test_handles_invalid_json] *)
Example test_handles_invalid_json :
  json.loads (str "not valid json") = Raises JSONDecodeError
  ∧ table_of (loaded_mappings agent)
      (world_of VNone (with_file (File true true (str "not valid json"))))
    = Some (VDict []).
Proof. split; by vm_compute. Qed.

(** [test_set_integration_id_for_agent] *)
Example test_set_integration_id_for_agent :
  match set_integration_id_for_agent agent (str "hubspot") (str "h-id")
          (world_of VNone directory_only) with
  | (Returns (), w) =>
      parsed_file (agent / CONFIG_FILENAME) w
      = Returns (VDict [(str "mappings",
                         VDict [(str "hubspot", VStr (str "h-id"))])])
  | _ => False
  end.
Proof. by vm_compute. Qed.
End tests.

(** * More properties of the module *)

Ltac simpl_world :=
  unfold set_log, set_disk, set_heap;
  cbn [disk log heap agent_path mappings fst snd].

Section more_facts.
Implicit Types (w : world) (self : AgentCredentialConfig).
Implicit Types (d : list (list N * pyval)) (provider : list N).
Implicit Types (p : list (list N)) (m : pyval).

(** What every run of [load] does to the world. *)
Lemma load_frame w p :
  disk (load p w).2 = disk w
  ∧ (∀ l v, heap w !! l = Some v → heap (load p w).2 !! l = Some v)
  ∧ (log (load p w).2 = log w ∨ log (load p w).2 = log w ++ [load_warning]).
Proof.
  assert (∀ l v x, heap w !! l = Some v →
            <[fresh (dom (heap w)) := x]> (heap w) !! l = Some v) as Hkeep.
  { intros l v x Hl. rewrite lookup_insert_ne; [done|].
    intros <-. by rewrite fresh_loc_None in Hl. }
  generalize (eq_refl (load p w)). generalize (load p w) at 2 3 4 5 6.
  intros r. unfold load. unfold_M.
  assert (∀ x lg,
            (lg = log w ∨ lg = log w ++ [load_warning]) →
            let r' := set_heap (<[fresh (dom (heap w)) := x]> (heap w))
                        (set_log lg w) in
            disk r' = disk w
            ∧ (∀ l v, heap w !! l = Some v → heap r' !! l = Some v)
            ∧ (log r' = log w ∨ log r' = log w ++ [load_warning])) as Hret.
  { intros x lg Hlg. cbn. split_and!; [done| |done]. intros l v. apply Hkeep. }
  assert (disk w = disk w
          ∧ (∀ l v, heap w !! l = Some v → heap w !! l = Some v)
          ∧ (log w = log w ∨ log w = log w ++ [load_warning])) as Hraise.
  { split_and!; auto. }
  destruct (disk w !! (p / CONFIG_FILENAME)) as [n|] eqn:Hfile.
  - cbv beta iota. rewrite Hfile.
    destruct n as [[] wr s|wr|];
      [|intros <-; apply (Hret (VDict []) _ (or_intror eq_refl))..].
    destruct (json.loads s) as [v|e|]; [| |by intros <-].
    + destruct v; intros <-;
        first [exact Hraise | apply (Hret _ _ (or_introl eq_refl))].
    + destruct e; intros <-;
        first [exact Hraise | apply (Hret (VDict []) _ (or_intror eq_refl))].
  - destruct (pathlib.stat_error w (p / CONFIG_FILENAME)); intros <-;
      [exact Hraise|].
    apply (Hret (VDict []) _ (or_introl eq_refl)).
Qed.

(** What a returning [load] hands back. *)
Lemma load_returns w p self w' :
  load p w = (Returns self, w') →
  agent_path self = p
  ∧ heap w !! mappings self = None
  ∧ disk w' = disk w
  ∧ ∃ v, heap w' = <[mappings self := v]> (heap w).
Proof.
  pose proof (fresh_loc_None w) as Hfresh.
  unfold load. unfold_M.
  destruct (disk w !! (p / CONFIG_FILENAME)) as [n|] eqn:Hfile.
  - cbv beta iota. rewrite Hfile.
    destruct n as [[] wr s|wr|]; cbn.
    + destruct (json.loads s) as [v|e|]; cbn; [| |done].
      * destruct v; cbn; try done; intros [= <- <-]; cbn; eauto 10.
      * destruct e; cbn; try done; intros [= <- <-]; cbn; eauto 10.
    + intros [= <- <-]; cbn; eauto 10.
    + intros [= <- <-]; cbn; eauto 10.
    + intros [= <- <-]; cbn; eauto 10.
  - destruct (pathlib.stat_error w (p / CONFIG_FILENAME)); [done|]. cbn.
    intros [= <- <-]; cbn; eauto 10.
Qed.

Lemma get_of_dict w self d provider :
  heap w !! mappings self = Some (VDict d) →
  get_integration_id self provider w
  = (Returns (from_option id VNone (dict_get provider d)), w).
Proof.
  intros Hm. unfold get_integration_id. unfold_M. by rewrite Hm.
Qed.

Lemma set_of_dict w self d provider integration_id :
  heap w !! mappings self = Some (VDict d) →
  set_integration_id self provider integration_id w
  = (Returns (),
     set_heap (<[mappings self := VDict (dict_setitem provider
                                           (VStr integration_id) d)]> (heap w)) w).
Proof.
  intros Hm. unfold set_integration_id. unfold_M. by rewrite Hm.
Qed.

Lemma remove_of_dict w self d provider :
  heap w !! mappings self = Some (VDict d) →
  remove_integration self provider w
  = if dict_contains provider d
    then (Returns true,
          set_heap (<[mappings self := VDict (dict_delitem provider d)]> (heap w)) w)
    else (Returns false, w).
Proof.
  intros Hm. unfold remove_integration. unfold_M. rewrite Hm.
  cbn [py_contains py_delitem]. by destruct (dict_contains provider d).
Qed.

(** X1.  Whatever [credentials.json] holds and however [load] ends, [load]
    writes no file, leaves every object that was there as it was, and logs
    nothing or one warning. *)
Theorem load_never_writes w p :
  disk (load p w).2 = disk w
  ∧ (∀ l v, heap w !! l = Some v → heap (load p w).2 !! l = Some v)
  ∧ (log (load p w).2 = log w ∨ log (load p w).2 = log w ++ [load_warning]).
Proof. apply load_frame. Qed.

(** X2.  For a readable [credentials.json] whose text [json.loads] rejects,
    [load] returns an instance for the path with an empty mapping, logs one
    warning and leaves the file as it is. *)
Theorem load_malformed_degrades w p writable s :
  disk w !! (p / CONFIG_FILENAME) = Some (File true writable s) →
  json.loads s = Raises JSONDecodeError →
  ∃ self w',
    load p w = (Returns self, w')
    ∧ agent_path self = p
    ∧ heap w' !! mappings self = Some (VDict [])
    ∧ disk w' = disk w
    ∧ log w' = log w ++ [load_warning].
Proof.
  intros Hfile Hloads.
  destruct (load_malformed w p writable s Hfile Hloads)
    as (self & w' & Hload & Hheap & Hlog).
  destruct (load_returns w p self w' Hload) as (Hpath & _ & Hdisk & _).
  by exists self, w'.
Qed.

Lemma load_malformed_degrades_witness :
  ∃ self w',
    load agent (world_of VNone (with_file (File true true (str "not valid json"))))
    = (Returns self, w')
    ∧ agent_path self = agent
    ∧ heap w' !! mappings self = Some (VDict [])
    ∧ disk w' = with_file (File true true (str "not valid json"))
    ∧ log w' = [] ++ [load_warning].
Proof.
  refine (load_malformed_degrades
            (world_of VNone (with_file (File true true (str "not valid json"))))
            agent true (str "not valid json") _ _).
  - reflexivity.
  - vm_compute. reflexivity.
Defined.

(** X3.  When [credentials.json] is there but cannot be read (no read
    permission, or a directory under that name), [load] returns an instance
    with an empty mapping, logs one warning and changes no file. *)
Theorem load_unreadable_degrades w p n :
  disk w !! (p / CONFIG_FILENAME) = Some n →
  (∀ writable s, n ≠ File true writable s) →
  ∃ self w',
    load p w = (Returns self, w')
    ∧ agent_path self = p
    ∧ heap w' !! mappings self = Some (VDict [])
    ∧ disk w' = disk w
    ∧ log w' = log w ++ [load_warning].
Proof.
  intros Hfile Hn.
  destruct (load_unreadable w p) as (self & w' & Hload & Hheap & Hlog); [by eauto|].
  destruct (load_returns w p self w' Hload) as (Hpath & _ & Hdisk & _).
  by exists self, w'.
Qed.

Lemma load_unreadable_degrades_witness :
  ∃ self w',
    load agent (world_of VNone (with_file (Directory true)))
    = (Returns self, w')
    ∧ agent_path self = agent
    ∧ heap w' !! mappings self = Some (VDict [])
    ∧ disk w' = with_file (Directory true)
    ∧ log w' = [] ++ [load_warning].
Proof.
  refine (load_unreadable_degrades
            (world_of VNone (with_file (Directory true)))
            agent (Directory true) _ _).
  - reflexivity.
  - intros writable s H. discriminate H.
Defined.

(** X4.  Two calls of [load] for the same path return instances that share
    no table: [set_integration_id] on the first changes nothing the second
    returns. *)
Theorem load_twice_independent w p a w1 b w2 d provider integration_id :
  load p w = (Returns a, w1) →
  load p w1 = (Returns b, w2) →
  heap w2 !! mappings a = Some (VDict d) →
  mappings a ≠ mappings b
  ∧ ∃ w3,
      set_integration_id a provider integration_id w2 = (Returns (), w3)
      ∧ heap w3 !! mappings b = heap w2 !! mappings b
      ∧ ∀ other,
          (get_integration_id b other w3).1 = (get_integration_id b other w2).1.
Proof.
  intros Ha Hb Hd.
  destruct (load_returns _ _ _ _ Ha) as (_ & _ & _ & va & Hheap1).
  destruct (load_returns _ _ _ _ Hb) as (_ & Hfresh & _ & vb & Hheap2).
  assert (mappings a ≠ mappings b) as Hne.
  { intros Heq. rewrite <-Heq, Hheap1, lookup_insert_eq in Hfresh. done. }
  split; [done|]. rewrite (set_of_dict _ _ _ _ _ Hd). eexists. split; [done|].
  cbn [heap set_heap].
  assert (<[mappings a := VDict (dict_setitem provider (VStr integration_id) d)]>
            (heap w2) !! mappings b = heap w2 !! mappings b) as Hsame.
  { by rewrite lookup_insert_ne. }
  split; [done|]. intros other. unfold get_integration_id. unfold_M.
  unfold set_heap. cbn [heap]. rewrite Hsame.
  by destruct (heap w2 !! mappings b).
Qed.

Lemma load_twice_independent_witness :
  ∃ a w1 b w2,
    load agent (world_of VNone directory_only) = (Returns a, w1)
    ∧ load agent w1 = (Returns b, w2)
    ∧ mappings a ≠ mappings b
    ∧ ∃ w3,
        set_integration_id a (str "google") (str "g-id") w2 = (Returns (), w3)
        ∧ heap w3 !! mappings b = heap w2 !! mappings b
        ∧ ∀ other,
            (get_integration_id b other w3).1 = (get_integration_id b other w2).1.
Proof.
  eexists _, _, _, _.
  split; [reflexivity|]. split; [reflexivity|].
  refine (load_twice_independent (world_of VNone directory_only) agent
            _ _ _ _ [] (str "google") (str "g-id") _ _ _); reflexivity.
Defined.

Lemma dict_delitem_setitem_new (k : list N) v d :
  dict_get k d = None → dict_delitem k (dict_setitem k v d) = d.
Proof.
  induction d as [|[k' v'] d IH]; csimpl.
  - intros _. by rewrite decide_True.
  - destruct (decide (k = k')) as [->|Hne]; [done|]. intros Hget. csimpl.
    rewrite decide_False by done. by rewrite IH.
Qed.

Lemma dict_setitem_setitem (k : list N) v v' d :
  dict_setitem k v' (dict_setitem k v d) = dict_setitem k v' d.
Proof.
  induction d as [|[k0 v0] d IH]; csimpl.
  - by rewrite decide_True.
  - destruct (decide (k = k0)) as [->|Hne]; csimpl.
    + by rewrite decide_True.
    + rewrite decide_False by done. by rewrite IH.
Qed.

Lemma dict_contains_setitem (k : list N) v d :
  dict_contains k (dict_setitem k v d) = true.
Proof. apply dict_contains_get. rewrite dict_get_setitem. by eexists. Qed.

Lemma Forall_dict_setitem (P : list N * pyval → Prop) (k : list N) v d :
  P (k, v) → Forall P d → Forall P (dict_setitem k v d).
Proof.
  intros Hkv. induction d as [|[k' v'] d IH]; csimpl; intros Hd.
  - by apply Forall_singleton.
  - apply Forall_cons in Hd as [Hhd Hd].
    destruct (decide (k = k')) as [->|Hne]; apply Forall_cons; auto.
Qed.

Lemma Forall_dict_delitem (P : list N * pyval → Prop) (k : list N) d :
  Forall P d → Forall P (dict_delitem k d).
Proof.
  induction d as [|[k' v'] d IH]; csimpl; intros Hd; [done|].
  apply Forall_cons in Hd as [Hhd Hd].
  destruct (decide (k = k')); [done|]. apply Forall_cons; auto.
Qed.

(** X5.  For a provider with no mapping, [set_integration_id] followed by
    [remove_integration] returns true and leaves the table exactly as it was
    before the two calls, order of the items included; no file is written. *)
Theorem set_then_remove_restores w self d provider integration_id :
  heap w !! mappings self = Some (VDict d) →
  dict_get provider d = None →
  ∃ w1 w2,
    set_integration_id self provider integration_id w = (Returns (), w1)
    ∧ remove_integration self provider w1 = (Returns true, w2)
    ∧ heap w2 !! mappings self = Some (VDict d)
    ∧ disk w2 = disk w.
Proof.
  intros Hm Habsent. rewrite (set_of_dict _ _ _ _ _ Hm). eexists _, _.
  split; [done|]. erewrite remove_of_dict; [|apply lookup_insert_eq].
  rewrite dict_contains_setitem. split; [done|]. cbn [heap set_heap disk].
  rewrite lookup_insert_eq. by rewrite dict_delitem_setitem_new.
Qed.

Lemma set_then_remove_restores_witness :
  ∃ w1 w2,
    set_integration_id example_config (str "slack") (str "s-id")
      (world_of (VDict example_table) directory_only) = (Returns (), w1)
    ∧ remove_integration example_config (str "slack") w1 = (Returns true, w2)
    ∧ heap w2 !! mappings example_config = Some (VDict example_table)
    ∧ disk w2 = directory_only.
Proof.
  refine (set_then_remove_restores
            (world_of (VDict example_table) directory_only)
            example_config example_table (str "slack") (str "s-id") _ _);
    reflexivity.
Defined.

(** X6.  Two calls of [set_integration_id] for one provider leave the table
    that the second call alone would leave: the last id wins and the provider
    keeps its place. *)
Theorem set_twice_last_wins w self d provider first second :
  heap w !! mappings self = Some (VDict d) →
  ∃ w1 w2 w',
    set_integration_id self provider first w = (Returns (), w1)
    ∧ set_integration_id self provider second w1 = (Returns (), w2)
    ∧ set_integration_id self provider second w = (Returns (), w')
    ∧ heap w2 = heap w'
    ∧ get_integration_id self provider w2 = (Returns (VStr second), w2).
Proof.
  intros Hm. rewrite !(set_of_dict _ _ _ _ _ Hm). eexists _, _, _.
  split; [done|]. erewrite set_of_dict; [|apply lookup_insert_eq].
  split; [done|]. split; [done|]. cbn [heap set_heap].
  rewrite insert_insert_eq, dict_setitem_setitem. split; [done|].
  erewrite get_of_dict; [|apply lookup_insert_eq].
  by rewrite dict_get_setitem.
Qed.

Lemma set_twice_last_wins_witness :
  ∃ w1 w2 w',
    set_integration_id example_config (str "google") (str "a")
      (world_of (VDict example_table) directory_only) = (Returns (), w1)
    ∧ set_integration_id example_config (str "google") (str "b") w1
      = (Returns (), w2)
    ∧ set_integration_id example_config (str "google") (str "b")
        (world_of (VDict example_table) directory_only) = (Returns (), w')
    ∧ heap w2 = heap w'
    ∧ get_integration_id example_config (str "google") w2
      = (Returns (VStr (str "b")), w2).
Proof.
  refine (set_twice_last_wins (world_of (VDict example_table) directory_only)
            example_config example_table (str "google") (str "a") (str "b") _).
  reflexivity.
Defined.

(** X7.  A table that is a [dict] from [str] to [str] is still one after
    [set_integration_id] with a [str] provider and a [str] id, and after
    [remove_integration]. *)
Theorem table_stays_typed w self d provider integration_id :
  heap w !! mappings self = Some (VDict d) →
  is_str_dict d →
  is_str provider → is_str integration_id →
  (∃ d', heap (set_integration_id self provider integration_id w).2
           !! mappings self = Some (VDict d')
         ∧ is_str_dict d')
  ∧ (∃ d', heap (remove_integration self provider w).2 !! mappings self
           = Some (VDict d')
           ∧ is_str_dict d').
Proof.
  intros Hm [Hdict Hstr] Hp Hid. split.
  - rewrite (set_of_dict _ _ _ _ _ Hm). cbn [snd heap set_heap].
    rewrite lookup_insert_eq. eexists. split; [done|]. split.
    + by apply is_dict_setitem.
    + apply Forall_dict_setitem; [|done]. split; [done|]. by eexists.
  - rewrite (remove_of_dict _ _ _ _ Hm). destruct (dict_contains provider d).
    + cbn [snd heap set_heap]. rewrite lookup_insert_eq. eexists.
      split; [done|]. split; [by apply is_dict_delitem|].
      by apply Forall_dict_delitem.
    + by exists d.
Qed.

Lemma table_stays_typed_witness :
  (∃ d', heap (set_integration_id example_config (str "slack") (str "s-id")
                 (world_of (VDict example_table) directory_only)).2
           !! mappings example_config = Some (VDict d')
         ∧ is_str_dict d')
  ∧ (∃ d', heap (remove_integration example_config (str "slack")
                   (world_of (VDict example_table) directory_only)).2
           !! mappings example_config = Some (VDict d')
           ∧ is_str_dict d').
Proof.
  refine (table_stays_typed (world_of (VDict example_table) directory_only)
            example_config example_table (str "slack") (str "s-id") _ _ _ _).
  - reflexivity.
  - apply example_table_is_str_dict.
  - unfold is_str. cbn [str]. by repeat (apply Forall_cons_2 || apply Forall_nil_2).
  - unfold is_str. cbn [str]. by repeat (apply Forall_cons_2 || apply Forall_nil_2).
Defined.

(** X8.  The table [list_mappings] returned is a snapshot: a later
    [set_integration_id] or [remove_integration] on the instance leaves the
    returned table as it was. *)
Theorem list_mappings_snapshot w self d provider integration_id :
  heap w !! mappings self = Some (VDict d) →
  ∃ l w1,
    list_mappings self w = (Returns l, w1)
    ∧ heap (set_integration_id self provider integration_id w1).2 !! l
      = Some (VDict d)
    ∧ heap (remove_integration self provider w1).2 !! l = Some (VDict d).
Proof.
  intros Hm. pose proof (fresh_loc_None w) as Hfresh.
  assert (mappings self ≠ fresh (dom (heap w))) as Hne by congruence.
  unfold list_mappings. unfold_M. rewrite Hm. cbn [py_dict].
  eexists _, _. split; [done|].
  assert (heap (set_heap (<[fresh (dom (heap w)) := VDict d]> (heap w)) w)
            !! mappings self = Some (VDict d)) as Hm1.
  { simpl_world. by rewrite lookup_insert_ne. }
  fold (set_integration_id self provider integration_id).
  rewrite (set_of_dict _ _ _ _ _ Hm1).
  fold (remove_integration self provider).
  rewrite (remove_of_dict _ _ _ _ Hm1). simpl_world.
  split; [by rewrite lookup_insert_ne, lookup_insert_eq|].
  destruct (dict_contains provider d); simpl_world.
  - by rewrite lookup_insert_ne, lookup_insert_eq.
  - apply lookup_insert_eq.
Qed.

Lemma list_mappings_snapshot_witness :
  ∃ l w1,
    list_mappings example_config (world_of (VDict example_table) directory_only)
    = (Returns l, w1)
    ∧ heap (set_integration_id example_config (str "google") (str "changed") w1).2
        !! l = Some (VDict example_table)
    ∧ heap (remove_integration example_config (str "google") w1).2 !! l
      = Some (VDict example_table).
Proof.
  refine (list_mappings_snapshot (world_of (VDict example_table) directory_only)
            example_config example_table (str "google") (str "changed") _).
  reflexivity.
Defined.

Lemma parent_truediv p (name : list N) : pathlib.parent (p / name) = p.
Proof. apply removelast_last. Qed.

Lemma save_overwrites w self m readable content :
  heap w !! mappings self = Some m →
  disk w !! (agent_path self / CONFIG_FILENAME) = Some (File readable true content) →
  save self w
  = (Returns (),
     set_log (log w ++ [save_info])
       (set_disk (<[agent_path self / CONFIG_FILENAME :=
                      File readable true
                        (json.dumps (VDict [(str "mappings", m)]))]> (disk w)) w)).
Proof. intros Hm Hfile. unfold save. unfold_M. by rewrite Hm, Hfile. Qed.

Lemma save_creates w self m :
  heap w !! mappings self = Some m →
  disk w !! (agent_path self / CONFIG_FILENAME) = None →
  disk w !! agent_path self = Some (Directory true) →
  save self w
  = (Returns (),
     set_log (log w ++ [save_info])
       (set_disk (<[agent_path self / CONFIG_FILENAME :=
                      File true true
                        (json.dumps (VDict [(str "mappings", m)]))]> (disk w)) w)).
Proof.
  intros Hm Hfile Hdir. unfold save. unfold_M.
  by rewrite Hm, Hfile, parent_truediv, Hdir.
Qed.

Lemma save_no_directory w self m :
  heap w !! mappings self = Some m →
  disk w !! (agent_path self / CONFIG_FILENAME) = None →
  disk w !! agent_path self ≠ Some (Directory true) →
  save self w = (Raises OSError, set_log (log w ++ [save_error]) w).
Proof.
  intros Hm Hfile Hdir. unfold save. unfold_M.
  rewrite Hm, Hfile, parent_truediv.
  by destruct (disk w !! agent_path self) as [[? ? ?|[]|]|].
Qed.

Lemma set_for_agent_after_load w p self w1 d provider integration_id :
  load p w = (Returns self, w1) →
  heap w1 !! mappings self = Some (VDict d) →
  set_integration_id_for_agent p provider integration_id w
  = save self
      (set_heap (<[mappings self := VDict (dict_setitem provider
                                             (VStr integration_id) d)]> (heap w1))
         w1).
Proof.
  intros Hload Hm. unfold set_integration_id_for_agent.
  unfold mbind at 1. unfold M_bind at 1. rewrite Hload.
  unfold mbind at 1. unfold M_bind at 1. by rewrite (set_of_dict _ _ _ _ _ Hm).
Qed.

Lemma get_for_agent_after_load w p self w1 provider :
  load p w = (Returns self, w1) →
  get_integration_id_for_agent p provider w = get_integration_id self provider w1.
Proof.
  intros Hload. unfold get_integration_id_for_agent.
  unfold mbind at 1. unfold M_bind at 1. by rewrite Hload.
Qed.

(** X9.  If [save] succeeds and the file it leaves may be written, a
    second [save] right after it succeeds too and leaves the same files; the
    table in memory is untouched by both. *)
Theorem save_twice_same_file w self m :
  heap w !! mappings self = Some m →
  (save self w).1 = Returns () →
  (∃ readable s,
     disk (save self w).2 !! (agent_path self / CONFIG_FILENAME)
     = Some (File readable true s)) →
  (save self (save self w).2).1 = Returns ()
  ∧ disk (save self (save self w).2).2 = disk (save self w).2
  ∧ heap (save self (save self w).2).2 = heap w.
Proof.
  intros Hm Hsave (r' & s & Hfile).
  destruct (save_write_ok w self m Hm (save_returns_inv w self m Hm Hsave))
    as (r & w1 & Hsave1 & Hdisk & Hheap & _).
  rewrite Hsave1 in Hfile |- *. cbn [snd] in Hfile |- *.
  rewrite (save_overwrites w1 self m r' s); [|by rewrite Hheap|done].
  simpl_world. split; [done|]. split; [|done].
  rewrite Hdisk, lookup_insert_eq in Hfile. injection Hfile as <- <-.
  rewrite Hdisk. apply insert_insert_eq.
Qed.

Lemma save_twice_same_file_witness :
  (save example_config
     (save example_config (world_of (VDict example_table) directory_only)).2).1
  = Returns ()
  ∧ disk (save example_config
            (save example_config
               (world_of (VDict example_table) directory_only)).2).2
    = disk (save example_config (world_of (VDict example_table) directory_only)).2
  ∧ heap (save example_config
            (save example_config
               (world_of (VDict example_table) directory_only)).2).2
    = heap (world_of (VDict example_table) directory_only).
Proof.
  refine (save_twice_same_file (world_of (VDict example_table) directory_only)
            example_config (VDict example_table) _ _ _).
  - reflexivity.
  - vm_compute. reflexivity.
  - eexists _, _. vm_compute. reflexivity.
Defined.

(** X10.  Two instances built without a [mappings] argument have each an
    empty table of their own; building them changes no object that was there
    and no file. *)
Theorem new_config_fresh_tables w p q :
  ∃ a w1 b w2,
    new_config p w = (Returns a, w1)
    ∧ new_config q w1 = (Returns b, w2)
    ∧ agent_path a = p ∧ agent_path b = q
    ∧ heap w2 !! mappings a = Some (VDict [])
    ∧ heap w2 !! mappings b = Some (VDict [])
    ∧ mappings a ≠ mappings b
    ∧ (∀ l v, heap w !! l = Some v → heap w2 !! l = Some v)
    ∧ disk w2 = disk w.
Proof.
  unfold new_config. unfold_M. eexists _, _, _, _.
  split; [done|]. split; [done|]. unfold set_heap.
  cbn [agent_path mappings heap disk].
  pose proof (fresh_loc_None w) as Hw.
  pose proof (fresh_loc_None
                (set_heap (<[fresh (dom (heap w)) := VDict []]> (heap w)) w)) as Hw1.
  unfold set_heap in Hw1. cbn [heap] in Hw1.
  assert (fresh (dom (heap w))
          ≠ fresh (dom (<[fresh (dom (heap w)) := VDict []]> (heap w)))) as Hne.
  { intros Heq. rewrite <-Heq, lookup_insert_eq in Hw1. done. }
  split_and!; [done|done| |apply lookup_insert_eq|done| |done].
  - by rewrite lookup_insert_ne, lookup_insert_eq.
  - intros l v Hl. rewrite lookup_insert_ne in Hw1 by done.
    rewrite !lookup_insert_ne; [done|congruence..].
Qed.

(** X11.  When [exists] finds no [credentials.json] under the agent path,
    [get_integration_id_for_agent] returns [None], writes nothing and logs
    nothing. *)
Theorem get_for_agent_without_file w p provider :
  (pathlib.exists_ (p / CONFIG_FILENAME) w).1 = Returns false →
  ∃ w',
    get_integration_id_for_agent p provider w = (Returns VNone, w')
    ∧ disk w' = disk w ∧ log w' = log w.
Proof.
  intros Hnone.
  destruct (load_absent w p Hnone) as (self & w1 & Hload & _ & Hm & Hdisk & Hlog).
  rewrite (get_for_agent_after_load _ _ _ _ _ Hload), (get_of_dict _ _ _ _ Hm).
  by exists w1.
Qed.

Lemma get_for_agent_without_file_witness :
  ∃ w',
    get_integration_id_for_agent agent (str "google")
      (world_of VNone directory_only) = (Returns VNone, w')
    ∧ disk w' = directory_only ∧ log w' = [].
Proof.
  refine (get_for_agent_without_file (world_of VNone directory_only) agent
            (str "google") _).
  vm_compute. reflexivity.
Defined.

(** X20.  In an agent directory that can be searched and holds no
    [credentials.json], [load] returns an instance for that path with an
    empty table of its own, writes nothing and logs nothing. *)
Theorem load_in_directory_without_file w p writable :
  disk w !! (p / CONFIG_FILENAME) = None →
  disk w !! p = Some (Directory writable) →
  ∃ self w',
    load p w = (Returns self, w')
    ∧ agent_path self = p
    ∧ heap w !! mappings self = None
    ∧ heap w' !! mappings self = Some (VDict [])
    ∧ disk w' = disk w ∧ log w' = log w.
Proof.
  intros Hnone Hdir.
  destruct (load_absent w p) as (self & w1 & Hload & Hpath & Hm & Hdisk & Hlog).
  { by rewrite (exists_in_directory w p CONFIG_FILENAME writable Hnone Hdir
                  CONFIG_FILENAME_short). }
  destruct (load_returns w p self w1 Hload) as (_ & Hnew & _).
  by exists self, w1.
Qed.

Lemma load_in_directory_without_file_witness :
  ∃ self w',
    load agent (world_of VNone directory_only) = (Returns self, w')
    ∧ agent_path self = agent
    ∧ heap (world_of VNone directory_only) !! mappings self = None
    ∧ heap w' !! mappings self = Some (VDict [])
    ∧ disk w' = directory_only ∧ log w' = [].
Proof.
  refine (load_in_directory_without_file (world_of VNone directory_only) agent
            true _ _).
  - vm_compute. reflexivity.
  - vm_compute. reflexivity.
Defined.

(** X12.  When [credentials.json] can be read and parses as an object whose
    [mappings] is a [dict], [get_integration_id_for_agent] returns what that
    [dict] holds for the provider, [None] if nothing; it writes nothing and
    logs nothing. *)
Theorem get_for_agent_reads_mapping w p writable s doc d provider :
  disk w !! (p / CONFIG_FILENAME) = Some (File true writable s) →
  json.loads s = Returns (VDict doc) →
  dict_get (str "mappings") doc = Some (VDict d) →
  ∃ w',
    get_integration_id_for_agent p provider w
    = (Returns (match dict_get provider d with Some v => v | None => VNone end), w')
    ∧ disk w' = disk w ∧ log w' = log w.
Proof.
  intros Hfile Hloads Hdoc.
  destruct (load_dict w p writable s doc Hfile Hloads)
    as (self & w1 & Hload & _ & Hm & Hdisk & Hlog).
  rewrite Hdoc in Hm. cbn in Hm.
  rewrite (get_for_agent_after_load _ _ _ _ _ Hload), (get_of_dict _ _ _ _ Hm).
  exists w1. split_and!; [|done..]. by destruct (dict_get provider d).
Qed.

Lemma get_for_agent_reads_mapping_witness :
  ∃ w',
    get_integration_id_for_agent agent (str "google")
      (world_of VNone (with_file (File true true existing_text)))
    = (Returns (match dict_get (str "google") existing_table with
                | Some v => v
                | None => VNone
                end), w')
    ∧ disk w' = with_file (File true true existing_text) ∧ log w' = [].
Proof.
  refine (get_for_agent_reads_mapping
            (world_of VNone (with_file (File true true existing_text))) agent
            true existing_text [(str "mappings", VDict existing_table)]
            existing_table (str "google") _ _ _).
  - reflexivity.
  - vm_compute. reflexivity.
  - reflexivity.
Defined.

(** X13.  In a writable agent directory with no [credentials.json],
    [set_integration_id_for_agent] creates the file with the one mapping it
    was given and logs the save. *)
Theorem set_for_agent_creates_file w p provider integration_id :
  disk w !! (p / CONFIG_FILENAME) = None →
  disk w !! p = Some (Directory true) →
  ∃ w',
    set_integration_id_for_agent p provider integration_id w = (Returns (), w')
    ∧ disk w'
      = <[p / CONFIG_FILENAME :=
            File true true
              (json.dumps
                 (VDict [(str "mappings",
                          VDict [(provider, VStr integration_id)])]))]> (disk w)
    ∧ log w' = log w ++ [save_info].
Proof.
  intros Hnone Hdir.
  destruct (load_absent w p) as (self & w1 & Hload & Hpath & Hm & Hdisk & Hlog).
  { by rewrite (exists_in_directory w p CONFIG_FILENAME true Hnone Hdir
                  CONFIG_FILENAME_short). }
  rewrite (set_for_agent_after_load _ _ _ _ _ _ _ Hload Hm).
  rewrite (save_creates _ self (VDict (dict_setitem provider (VStr integration_id) []))).
  - eexists. split; [done|]. simpl_world. by rewrite Hpath, Hdisk, Hlog.
  - simpl_world. apply lookup_insert_eq.
  - simpl_world. by rewrite Hpath, Hdisk.
  - simpl_world. by rewrite Hpath, Hdisk.
Qed.

Lemma set_for_agent_creates_file_witness :
  ∃ w',
    set_integration_id_for_agent agent (str "hubspot") (str "h-id")
      (world_of VNone directory_only) = (Returns (), w')
    ∧ disk w'
      = <[agent / CONFIG_FILENAME :=
            File true true
              (json.dumps
                 (VDict [(str "mappings",
                          VDict [(str "hubspot", VStr (str "h-id"))])]))]>
          directory_only
    ∧ log w' = [] ++ [save_info].
Proof.
  refine (set_for_agent_creates_file (world_of VNone directory_only) agent
            (str "hubspot") (str "h-id") _ _).
  - vm_compute. reflexivity.
  - vm_compute. reflexivity.
Defined.

(** X15.  When [credentials.json] is readable and writable but its text is
    not JSON, [set_integration_id_for_agent] replaces the whole file by the one
    mapping it was given: the old content is gone; a warning and the save are
    logged. *)
Theorem set_for_agent_replaces_corrupt_file w p s provider integration_id :
  disk w !! (p / CONFIG_FILENAME) = Some (File true true s) →
  json.loads s = Raises JSONDecodeError →
  ∃ w',
    set_integration_id_for_agent p provider integration_id w = (Returns (), w')
    ∧ disk w'
      = <[p / CONFIG_FILENAME :=
            File true true
              (json.dumps
                 (VDict [(str "mappings",
                          VDict [(provider, VStr integration_id)])]))]> (disk w)
    ∧ log w' = log w ++ [load_warning; save_info].
Proof.
  intros Hfile Hloads.
  destruct (load_malformed w p true s Hfile Hloads)
    as (self & w1 & Hload & Hm & Hlog).
  destruct (load_returns w p self w1 Hload) as (Hpath & _ & Hdisk & _).
  rewrite (set_for_agent_after_load _ _ _ _ _ _ _ Hload Hm).
  rewrite (save_overwrites _ self
             (VDict (dict_setitem provider (VStr integration_id) [])) true s).
  - eexists. split; [done|]. simpl_world. rewrite Hpath, Hdisk, Hlog.
    by rewrite <-app_assoc.
  - simpl_world. apply lookup_insert_eq.
  - simpl_world. by rewrite Hpath, Hdisk.
Qed.

Lemma set_for_agent_replaces_corrupt_file_witness :
  ∃ w',
    set_integration_id_for_agent agent (str "hubspot") (str "h-id")
      (world_of VNone (with_file (File true true (str "not valid json"))))
    = (Returns (), w')
    ∧ disk w'
      = <[agent / CONFIG_FILENAME :=
            File true true
              (json.dumps
                 (VDict [(str "mappings",
                          VDict [(str "hubspot", VStr (str "h-id"))])]))]>
          (with_file (File true true (str "not valid json")))
    ∧ log w' = [] ++ [load_warning; save_info].
Proof.
  refine (set_for_agent_replaces_corrupt_file
            (world_of VNone (with_file (File true true (str "not valid json"))))
            agent (str "not valid json") (str "hubspot") (str "h-id") _ _).
  - reflexivity.
  - vm_compute. reflexivity.
Defined.

(** X16.  When [credentials.json] parses as JSON that is not an object,
    both convenience functions raise the [AttributeError] of [load]; the
    setter writes nothing and the world is as it was. *)
Theorem for_agent_non_object_raises w p writable s v provider integration_id :
  disk w !! (p / CONFIG_FILENAME) = Some (File true writable s) →
  json.loads s = Returns v →
  (∀ d, v ≠ VDict d) →
  get_integration_id_for_agent p provider w = (Raises AttributeError, w)
  ∧ set_integration_id_for_agent p provider integration_id w
    = (Raises AttributeError, w).
Proof.
  intros Hfile Hloads Hv.
  pose proof (load_not_dict w p writable s v Hfile Hloads Hv) as Hload.
  unfold get_integration_id_for_agent, set_integration_id_for_agent.
  unfold mbind, M_bind. by rewrite Hload.
Qed.

Lemma for_agent_non_object_raises_witness :
  get_integration_id_for_agent agent (str "google")
    (world_of VNone (with_file (File true true (str "[]"))))
  = (Raises AttributeError, world_of VNone (with_file (File true true (str "[]"))))
  ∧ set_integration_id_for_agent agent (str "google") (str "g-id")
      (world_of VNone (with_file (File true true (str "[]"))))
    = (Raises AttributeError,
       world_of VNone (with_file (File true true (str "[]")))).
Proof.
  refine (for_agent_non_object_raises
            (world_of VNone (with_file (File true true (str "[]")))) agent true
            (str "[]") (VList []) (str "google") (str "g-id") _ _ _).
  - reflexivity.
  - vm_compute. reflexivity.
  - intros d H. discriminate H.
Defined.

(** X17.  When [exists] finds no [credentials.json] and the agent path is
    not a writable directory (it is not there, it is a file, or it may not
    be written), [set_integration_id_for_agent] raises [OSError], creates
    nothing and logs the error: the directory is not created. *)
Theorem set_for_agent_without_directory w p provider integration_id :
  (pathlib.exists_ (p / CONFIG_FILENAME) w).1 = Returns false →
  disk w !! p ≠ Some (Directory true) →
  ∃ w',
    set_integration_id_for_agent p provider integration_id w
    = (Raises OSError, w')
    ∧ disk w' = disk w
    ∧ log w' = log w ++ [save_error].
Proof.
  intros Hexists Hdir.
  destruct (exists_false_inv w _ Hexists) as [Hnone _].
  destruct (load_absent w p Hexists)
    as (self & w1 & Hload & Hpath & Hm & Hdisk & Hlog).
  rewrite (set_for_agent_after_load _ _ _ _ _ _ _ Hload Hm).
  rewrite (save_no_directory _ self
             (VDict (dict_setitem provider (VStr integration_id) []))).
  - eexists. split; [done|]. simpl_world. by rewrite Hdisk, Hlog.
  - simpl_world. apply lookup_insert_eq.
  - simpl_world. by rewrite Hpath, Hdisk.
  - simpl_world. by rewrite Hpath, Hdisk.
Qed.

Lemma set_for_agent_without_directory_witness :
  ∃ w',
    set_integration_id_for_agent agent (str "hubspot") (str "h-id")
      (world_of VNone ∅) = (Raises OSError, w')
    ∧ disk w' = ∅
    ∧ log w' = [] ++ [save_error].
Proof.
  refine (set_for_agent_without_directory (world_of VNone ∅) agent
            (str "hubspot") (str "h-id") _ _).
  - vm_compute. reflexivity.
  - intros H. vm_compute in H. discriminate H.
Defined.

Lemma table_of_loaded_inv w p v :
  table_of (loaded_mappings p) w = Some v →
  ∃ self w1, load p w = (Returns self, w1) ∧ heap w1 !! mappings self = Some v.
Proof.
  unfold table_of, loaded_mappings, mbind, M_bind, mret, M_ret.
  destruct (load p w) as [[self|e|] w1]; [|done..]. intros Hv. by exists self, w1.
Qed.

(** A save that returns and leaves a file that can be read. *)
Lemma save_returns_readable w self m w' :
  heap w !! mappings self = Some m →
  save self w = (Returns (), w') →
  (∃ writable s,
     disk w' !! (agent_path self / CONFIG_FILENAME)
     = Some (File true writable s)) →
  disk w' = <[agent_path self / CONFIG_FILENAME :=
                File true true (json.dumps (VDict [(str "mappings", m)]))]>
              (disk w)
  ∧ heap w' = heap w.
Proof.
  intros Hm Hsave (wr & s & Hreadable).
  assert ((save self w).1 = Returns ()) as Hret by (by rewrite Hsave).
  destruct (save_write_ok w self m Hm (save_returns_inv w self m Hm Hret))
    as (r & w1 & Hsave1 & Hdisk & Hheap & _).
  rewrite Hsave in Hsave1. injection Hsave1 as <-.
  rewrite Hdisk, lookup_insert_eq in Hreadable.
  by injection Hreadable as -> _ _.
Qed.

Lemma good_pairs_setitem d (provider integration_id : list N) :
  is_str_dict d → no_surrogate_pairs d = true →
  good provider → good integration_id →
  is_dict (dict_setitem provider (VStr integration_id) d)
  ∧ Forall (λ kv, good kv.1 ∧ ∃ s, kv.2 = VStr s ∧ good s)
      (dict_setitem provider (VStr integration_id) d).
Proof.
  intros Hstr Hpairs Hp Hid. split.
  - apply is_dict_setitem, Hstr.
  - apply Forall_dict_setitem; [|by apply roundtrip_premise].
    split; [done|]. by eexists.
Qed.

(** X14.  After a [set_integration_id_for_agent] that succeeds and leaves
    a file that can be read, [get_integration_id_for_agent] returns the new
    id for that provider, and for every other provider what it returned
    before.  The table [load] finds is a [dict] from [str] to [str]; no
    string at hand has a high surrogate right before a low one. *)
Theorem set_then_get_for_agent w p d provider integration_id :
  table_of (loaded_mappings p) w = Some (VDict d) →
  is_str_dict d → no_surrogate_pairs d = true →
  good provider → good integration_id →
  (set_integration_id_for_agent p provider integration_id w).1 = Returns () →
  (∃ writable s,
     disk (set_integration_id_for_agent p provider integration_id w).2
       !! (p / CONFIG_FILENAME)
     = Some (File true writable s)) →
  (get_integration_id_for_agent p provider
     (set_integration_id_for_agent p provider integration_id w).2).1
  = Returns (VStr integration_id)
  ∧ ∀ other, other ≠ provider →
      (get_integration_id_for_agent p other
         (set_integration_id_for_agent p provider integration_id w).2).1
      = (get_integration_id_for_agent p other w).1.
Proof.
  intros Htable Hstr Hpairs Hp Hid Hret Hreadable.
  destruct (table_of_loaded_inv _ _ _ Htable) as (self & w1 & Hload & Hm).
  destruct (load_returns _ _ _ _ Hload) as (Hpath & _ & Hdisk & _).
  destruct (good_pairs_setitem d provider integration_id Hstr Hpairs Hp Hid)
    as [Hdict' Hgood'].
  set (d' := dict_setitem provider (VStr integration_id) d) in *.
  revert Hret Hreadable.
  rewrite (set_for_agent_after_load _ _ _ _ _ _ _ Hload Hm).
  fold d'. set (w1' := set_heap _ w1).
  destruct (save self w1') as [[[]|e|] w2] eqn:Hsave; [|done..].
  intros _ Hreadable. cbn [snd] in Hreadable |- *.
  destruct (save_returns_readable w1' self (VDict d') w2) as [Hdisk2 _].
  { subst w1'. simpl_world. apply lookup_insert_eq. }
  { done. }
  { by rewrite Hpath. }
  rewrite Hpath in Hdisk2.
  destruct (load_dict w2 p true (json.dumps (VDict [(str "mappings", VDict d')]))
              [(str "mappings", VDict d')])
    as (self2 & w3 & Hload2 & _ & Hm2 & _).
  { rewrite Hdisk2. apply lookup_insert_eq. }
  { by apply json_facts.loads_dumps_document. }
  cbn [dict_get] in Hm2. rewrite decide_True in Hm2 by done. cbn in Hm2.
  split.
  - rewrite (get_for_agent_after_load _ _ _ _ _ Hload2), (get_of_dict _ _ _ _ Hm2).
    subst d'. by rewrite dict_get_setitem.
  - intros other Hne.
    rewrite (get_for_agent_after_load _ _ _ _ _ Hload2), (get_of_dict _ _ _ _ Hm2).
    rewrite (get_for_agent_after_load _ _ _ _ _ Hload), (get_of_dict _ _ _ _ Hm).
    subst d'. by rewrite dict_get_setitem_ne.
Qed.

Lemma set_then_get_for_agent_witness :
  (get_integration_id_for_agent agent (str "google")
     (set_integration_id_for_agent agent (str "google") (str "new-id")
        (world_of VNone (with_file (File true true existing_text)))).2).1
  = Returns (VStr (str "new-id"))
  ∧ ∀ other, other ≠ str "google" →
      (get_integration_id_for_agent agent other
         (set_integration_id_for_agent agent (str "google") (str "new-id")
            (world_of VNone (with_file (File true true existing_text)))).2).1
      = (get_integration_id_for_agent agent other
           (world_of VNone (with_file (File true true existing_text)))).1.
Proof.
  assert (∀ s : string, good (str s) ↔
            bool_decide (Forall (λ c, (c < 0x110000)%N) (str s))
            && negb (has_surrogate_pair (str s)) = true) as Hgood.
  { intros s. unfold good, is_str.
    rewrite andb_true_iff, bool_decide_eq_true, negb_true_iff. done. }
  refine (set_then_get_for_agent
            (world_of VNone (with_file (File true true existing_text))) agent
            existing_table (str "google") (str "new-id") _ _ _ _ _ _ _).
  - vm_compute. reflexivity.
  - split.
    + unfold is_dict. apply (bool_decide_unpack _). by vm_compute.
    + repeat (apply Forall_cons_2 || apply Forall_nil_2);
        (split; [|eexists; split; [done|]]);
        unfold is_str; cbn [fst str];
        repeat (apply Forall_cons_2 || apply Forall_nil_2); done.
  - reflexivity.
  - apply Hgood. by vm_compute.
  - apply Hgood. by vm_compute.
  - vm_compute. reflexivity.
  - eexists _, _. vm_compute. reflexivity.
Defined.

(** X18.  [load] followed by [save] rewrites the file to the one key
    [mappings]: for a readable, writable file that parses as an object whose
    [mappings] is a [dict] from [str] to [str] (no high surrogate right
    before a low one), the file then parses as exactly that [dict] under
    [mappings], whatever other keys it had. *)
Theorem load_save_keeps_only_mappings w p s doc d :
  disk w !! (p / CONFIG_FILENAME) = Some (File true true s) →
  json.loads s = Returns (VDict doc) →
  dict_get (str "mappings") doc = Some (VDict d) →
  is_str_dict d → no_surrogate_pairs d = true →
  ∃ w',
    (self ← load p; save self) w = (Returns (), w')
    ∧ parsed_file (p / CONFIG_FILENAME) w'
      = Returns (VDict [(str "mappings", VDict d)]).
Proof.
  intros Hfile Hloads Hdoc Hstr Hpairs.
  destruct (load_dict w p true s doc Hfile Hloads)
    as (self & w1 & Hload & Hpath & Hm & Hdisk & _).
  rewrite Hdoc in Hm. cbn in Hm.
  unfold mbind at 1. unfold M_bind at 1. rewrite Hload.
  rewrite (save_overwrites w1 self (VDict d) true s Hm)
    by (by rewrite Hpath, Hdisk).
  eexists. split; [done|]. unfold parsed_file. simpl_world.
  rewrite Hpath, lookup_insert_eq.
  apply json_facts.loads_dumps_document; [apply Hstr|by apply roundtrip_premise].
Qed.

Lemma load_save_keeps_only_mappings_witness :
  ∃ w',
    (self ← load agent; save self)
      (world_of VNone
         (with_file
            (File true true
               (json.dumps (VDict [(str "mappings", VDict example_table);
                                   (str "version", VInt 2)])))))
    = (Returns (), w')
    ∧ parsed_file (agent / CONFIG_FILENAME) w'
      = Returns (VDict [(str "mappings", VDict example_table)]).
Proof.
  refine (load_save_keeps_only_mappings
            (world_of VNone (with_file (File true true _))) agent _
            [(str "mappings", VDict example_table); (str "version", VInt 2)]
            example_table _ _ _ _ _).
  - reflexivity.
  - vm_compute. reflexivity.
  - reflexivity.
  - apply example_table_is_str_dict.
  - reflexivity.
Defined.
End more_facts.

Module ascii_facts.
Import json.
Local Open Scope N_scope.

Lemma printable_str (s : string) :
  forallb (λ c, (c =? 10) || ((32 <=? c) && (c <=? 126))) (str s) = true →
  Forall printable (str s).
Proof.
  intros H. apply Is_true_true, forallb_True in H.
  eapply Forall_impl; [exact H|]. intros c Hc%Is_true_true.
  apply orb_true_iff in Hc as [Hc|[H1 H2]%andb_true_iff].
  - left. by apply N.eqb_eq.
  - right. split; by apply N.leb_le.
Qed.

Lemma hexdigit_printable d : d < 16 → printable (hexdigit d).
Proof.
  intros Hd. right. unfold hexdigit. destruct (N.ltb_spec d 10); lia.
Qed.

Lemma format_04x_printable n : Forall printable (format_04x n).
Proof.
  unfold format_04x.
  repeat (apply Forall_cons_2 || apply Forall_nil_2);
    apply hexdigit_printable, N.mod_upper_bound; lia.
Qed.

Lemma replace_printable c : Forall printable (replace c).
Proof.
  unfold replace. destruct (ESCAPE_DCT c) as [r|] eqn:Hdct.
  - revert Hdct. unfold ESCAPE_DCT.
    repeat match goal with
           | |- (if ?c =? ?k then _ else _) = _ → _ =>
               destruct (c =? k);
               [intros [= <-];
                repeat (apply Forall_cons_2 || apply Forall_nil_2);
                right; cbn; lia|]
           end.
    done.
  - assert (Forall printable (str "\u")) as Hu by (by apply printable_str).
    destruct (c <? 0x10000); cbv zeta;
      repeat (apply Forall_app_2); auto using format_04x_printable.
Qed.

(** Whatever code points a [str] has, its escaped form has only characters
    from space to tilde. *)
Lemma escape_printable s : Forall printable (escape s).
Proof.
  induction s as [|c s IH]; [by apply Forall_nil_2|].
  unfold escape. cbn [flat_map]. apply Forall_app_2; [|apply IH].
  destruct (ESCAPE_ASCII c) eqn:Hesc; [apply replace_printable|].
  apply Forall_singleton. right. unfold ESCAPE_ASCII in Hesc.
  apply orb_false_iff in Hesc as [_ Hesc].
  apply negb_false_iff, andb_true_iff in Hesc as [H1 H2].
  split; by apply N.leb_le.
Qed.

Lemma py_encode_printable s : Forall printable (py_encode_basestring_ascii s).
Proof.
  unfold py_encode_basestring_ascii. apply Forall_cons_2; [right; lia|].
  apply Forall_app_2; [apply escape_printable|].
  apply Forall_singleton. right. lia.
Qed.

Lemma newline_indent_printable lvl : Forall printable (newline_indent lvl).
Proof.
  unfold newline_indent. apply Forall_cons_2; [by left|].
  induction (2 * lvl)%nat as [|n IH]; [by apply Forall_nil_2|].
  cbn [List.repeat]. apply Forall_cons_2; [right; lia|done].
Qed.

Lemma join_printable sep chunks :
  Forall printable sep → Forall (Forall printable) chunks →
  Forall printable (join sep chunks).
Proof.
  intros Hsep. induction chunks as [|c cs IH]; intros Hcs; [by apply Forall_nil_2|].
  apply Forall_cons in Hcs as [Hc Hcs]. cbn [join].
  destruct cs as [|c' cs']; [done|].
  apply Forall_app_2; [done|]. apply Forall_app_2; [done|]. by apply IH.
Qed.

Lemma iterencode_str_dict_printable lvl d :
  Forall (λ kv, ∃ s, kv.2 = VStr s) d →
  Forall printable (iterencode lvl (VDict d)).
Proof.
  intros Hd. cbn [iterencode]. destruct d as [|kv d']; [by apply printable_str|].
  apply Forall_app_2; [by apply printable_str|].
  apply Forall_app_2; [apply newline_indent_printable|].
  apply Forall_app_2;
    [|apply Forall_app_2; [apply newline_indent_printable|by apply printable_str]].
  apply join_printable.
  - apply Forall_app_2; [by apply printable_str|apply newline_indent_printable].
  - apply Forall_fmap. eapply Forall_impl; [exact Hd|].
    intros [k v] [s Hs]. cbn [fst snd] in *. subst v. cbn [iterencode].
    apply Forall_app_2; [apply py_encode_printable|].
    apply Forall_app_2; [by apply printable_str|apply py_encode_printable].
Qed.

Lemma dumps_document_printable d :
  Forall (λ kv, ∃ s, kv.2 = VStr s) d →
  Forall printable (dumps (VDict [(str "mappings", VDict d)])).
Proof.
  intros Hd. unfold dumps. cbn [iterencode map join fst snd].
  apply Forall_app_2; [by apply printable_str|].
  apply Forall_app_2; [apply newline_indent_printable|].
  apply Forall_app_2;
    [|apply Forall_app_2; [apply newline_indent_printable|by apply printable_str]].
  apply Forall_app_2; [apply py_encode_printable|].
  apply Forall_app_2; [by apply printable_str|].
  by apply iterencode_str_dict_printable.
Qed.
End ascii_facts.

Section more_facts2.
Implicit Types (w : world) (self : AgentCredentialConfig).

(** X19.  The file a successful [save] leaves for a table with [str]
    values has only characters from space to tilde and new lines, whatever
    code points the keys and values have. *)
Theorem save_writes_ascii w self d w' :
  heap w !! mappings self = Some (VDict d) →
  Forall (λ kv, ∃ s, kv.2 = VStr s) d →
  save self w = (Returns (), w') →
  ∃ readable content,
    disk w' !! (agent_path self / CONFIG_FILENAME)
    = Some (File readable true content)
    ∧ Forall printable content.
Proof.
  intros Hm Hd Hsave.
  assert ((save self w).1 = Returns ()) as Hret by (by rewrite Hsave).
  destruct (save_write_ok w self _ Hm (save_returns_inv w self _ Hm Hret))
    as (r & w1 & Hsave1 & Hdisk & _).
  rewrite Hsave in Hsave1. injection Hsave1 as <-.
  eexists _, _. split; [rewrite Hdisk; apply lookup_insert_eq|].
  by apply ascii_facts.dumps_document_printable.
Qed.

Lemma save_writes_ascii_witness :
  ∃ readable content,
    disk (save example_config (world_of (VDict surrogate_table) directory_only)).2
      !! (agent / CONFIG_FILENAME)
    = Some (File readable true content)
    ∧ Forall printable content.
Proof.
  refine (save_writes_ascii (world_of (VDict surrogate_table) directory_only)
            example_config surrogate_table _ _ _ _).
  - reflexivity.
  - apply Forall_singleton. by eexists.
  - vm_compute. reflexivity.
Defined.
End more_facts2.
